(** * osu.asyncio.http: the rate limiter and the request dispatcher

    A shallow embedding of [src/osu/asyncio/http.py]:
    [RateLimitHandler] (the sliding-window limiter) and
    [AsynchronousHTTPHandler] (header construction and [_make_request]).

    Modelling choices.
    - [time.perf_counter()] returns Python floats.  Timestamps and durations
      are modelled as exact rationals ([Q]); rounding is not modelled there.
      Where a property turns on rounding, the constructor and the readiness
      check are also given over binary64 floats, in [Binary64].
    - The clock is an oracle [clk : nat -> Q] stored in the world together
      with the number of readings taken so far: the k-th call of
      [perf_counter] returns [clk k].  Every call site of
      [time.perf_counter()] in the source is one reading in the model, in the
      source's evaluation order.
    - Python exceptions are an error monad over the world; mutations made
      before an exception is raised stay in the world, as in Python.
    - [asyncio.sleep] and the transport ([requests.<verb>]) are events in a
      chronological trace; a single logical task is modelled. *)

From Stdlib Require Import QArith Qminmax Lqa ZArith Lia List Sorted.
From Stdlib Require Import PrimFloat.
From stdpp Require Import base option list strings gmap pretty.

Local Open Scope string_scope.
Local Open Scope Z_scope.
Local Open Scope list_scope.

(** ** Python values that travel through header dictionaries *)

Inductive pyobj : Type :=
| PyNone
| PyStr (s : string)
| PyInt (z : Z)
| PyBool (b : bool).

Definition is_py_none (v : pyobj) : bool :=
  match v with PyNone => true | _ => false end.

(** [str(value)] *)
Definition py_str (v : pyobj) : string :=
  match v with
  | PyNone => "None"
  | PyStr s => s
  | PyInt z => pretty z
  | PyBool true => "True"
  | PyBool false => "False"
  end.

(** ** Exceptions *)

Inductive exn : Type :=
| ScopeException (msg : string)
| IndexError
| AttributeError
| TypeError
| HTTPError (status : Z)
| TransportError
| JSONDecodeError.

Inductive result (A : Type) : Type :=
| Ok (a : A)
| Raise (e : exn).
Arguments Ok {A} a.
Arguments Raise {A} e.

(** ** The limiter object and the world *)

Record RateLimitHandler : Type := mkRateLimitHandler {
  wait_limit : Q;
  limit : Z;
  last_request : Q;
  requests : list Q
}.

Inductive verb : Type := GET | POST | DELETE | PATCH | PUT.

Record request : Type := mkRequest {
  rq_method : verb;
  rq_url : string;
  rq_headers : gmap string string;
  rq_data : gmap string pyobj;
  rq_stream : bool;
  rq_params : gmap string pyobj
}.

Inductive event : Type :=
| EvSleep (delay : Q)
| EvRequest (r : request).

Record world : Type := mkWorld {
  clk : nat -> Q;
  ticks : nat;
  rate_limit : RateLimitHandler;
  trace : list event
}.

Definition set_rate_limit (rl : RateLimitHandler) (w : world) : world :=
  mkWorld (clk w) (ticks w) rl (trace w).

Definition set_requests (rs : list Q) (rl : RateLimitHandler) : RateLimitHandler :=
  mkRateLimitHandler (wait_limit rl) (limit rl) (last_request rl) rs.

Definition set_last_request (t : Q) (rl : RateLimitHandler) : RateLimitHandler :=
  mkRateLimitHandler (wait_limit rl) (limit rl) t (requests rl).

(** ** The monad of effectful Python code *)

Definition M (A : Type) : Type := world -> result A * world.

Definition ret {A} (a : A) : M A := fun w => (Ok a, w).

Definition raise {A} (e : exn) : M A := fun w => (Raise e, w).

Definition bind {A B} (m : M A) (k : A -> M B) : M B :=
  fun w =>
    match m w with
    | (Ok a, w') => k a w'
    | (Raise e, w') => (Raise e, w')
    end.

#[global] Instance M_ret : MRet M := @ret.
#[global] Instance M_bind : MBind M := fun A B k m => bind m k.

Definition lift {A} (r : result A) : M A := fun w => (r, w).

(** [time.perf_counter()] *)
Definition perf_counter : M Q :=
  fun w => (Ok (clk w (ticks w)), mkWorld (clk w) (S (ticks w)) (rate_limit w) (trace w)).

Definition get_limiter : M RateLimitHandler := fun w => (Ok (rate_limit w), w).

Definition modify_limiter (f : RateLimitHandler -> RateLimitHandler) : M unit :=
  fun w => (Ok tt, set_rate_limit (f (rate_limit w)) w).

Definition emit (e : event) : M unit :=
  fun w => (Ok tt, mkWorld (clk w) (ticks w) (rate_limit w) (trace w ++ [e])).

(** [await asyncio.sleep(delay)]: the task is suspended; a delay that is
    zero or negative yields once and returns. *)
Definition asyncio_sleep (delay : Q) : M unit := emit (EvSleep delay).

(** The time a sleep really takes. *)
Definition effective_delay (delay : Q) : Q :=
  if Qle_bool delay 0 then 0%Q else delay.

Definition Qlt_bool (a b : Q) : bool := negb (Qle_bool b a).

(** Python's [max(a, b)]: [b] when [b > a], otherwise [a]. *)
Definition py_max (a b : Q) : Q := if Qlt_bool a b then b else a.

(** ** RateLimitHandler *)

Module RateLimit.

(** [RateLimitHandler.__init__] *)
Definition init (request_wait_limit : Q) (limit_per_minute : Z) : M unit :=
  t ← perf_counter;
  modify_limiter (fun _ =>
    mkRateLimitHandler request_wait_limit limit_per_minute
                       (t - request_wait_limit)%Q []).

(** [request_used] *)
Definition request_used : M unit :=
  t1 ← perf_counter;
  modify_limiter (fun rl => set_requests (requests rl ++ [t1]) rl);;
  t2 ← perf_counter;
  modify_limiter (set_last_request t2).

(** [wait] *)
Definition wait : M unit :=
  t1 ← perf_counter;
  rl ← get_limiter;
  let next_available_request := (wait_limit rl - (t1 - last_request rl))%Q in
  next_available_request ←
    (if limit rl <=? Z.of_nat (length (requests rl)) then
       match requests rl with
       | [] => raise IndexError
       | r0 :: _ =>
           t2 ← perf_counter;
           ret (py_max next_available_request (r0 + 60 - t2)%Q)
       end
     else ret next_available_request);
  asyncio_sleep next_available_request.

(** The body of [while True] in [reset].  The k-th iteration sees the history
    with k entries popped, so the loop is a recursion on the history; each
    [pop(0)] is written back to the object before the next iteration.  On the
    empty history [self.requests[0]] raises. *)
Fixpoint reset_loop (rs : list Q) : M unit :=
  match rs with
  | [] => raise IndexError
  | r0 :: rest =>
      t ← perf_counter;
      if Qlt_bool (r0 + 60)%Q t
      then modify_limiter (set_requests rest);; reset_loop rest
      else ret tt
  end.

(** [reset] *)
Definition reset : M unit :=
  rl ← get_limiter;
  if (length (requests rl) =? 0)%nat then ret tt
  else reset_loop (requests rl).

(** [can_request] (a property: every read runs [reset]) *)
Definition can_request : M bool :=
  reset;;
  t ← perf_counter;
  rl ← get_limiter;
  ret (Qle_bool (wait_limit rl) (t - last_request rl)%Q
       && (Z.of_nat (length (requests rl)) <? limit rl)).

End RateLimit.

(** ** AsynchronousHTTPHandler *)

(** The response object of the transport. *)
Record response : Type := mkResponse {
  status_code : Z;
  body : string
}.

(** What the module imports or receives and does not define: the scope
    objects ([path.scope], [auth.scope]) with their [scopes] attribute, their
    [in] test and their formatting, [constants.base_url], the transport
    [requests.<verb>] and the decoding [response.json()]. *)
Class Collaborators : Type := {
  Scope : Type;
  ScopeValue : Type;
  scopes : Scope -> ScopeValue;
  scope_contains : Scope -> ScopeValue -> bool;
  scope_format : Scope -> string;
  base_url : string;
  Json : Type;
  transport : request -> result response;
  json : response -> result Json
}.

Definition is_none {A} (o : option A) : bool :=
  match o with None => true | Some _ => false end.

(** [requests.Response.raise_for_status]: statuses 400..599 raise. *)
Definition raise_for_status (r : response) : M unit :=
  if (400 <=? status_code r) && (status_code r <? 600)
  then raise (HTTPError (status_code r))
  else ret tt.

Section Dispatcher.
Context `{Collaborators}.

(** The endpoint descriptor ([path.path], [path.requires_auth], [path.scope]). *)
Record Path : Type := mkPath {
  path : string;
  requires_auth : bool;
  scope : Scope
}.

(** The credential object ([auth.token], [auth.scope]). *)
Record Auth : Type := mkAuth {
  token : string;
  auth_scope : Scope
}.

(** The handler: [self.auth] and [self.client.auth]; [self.rate_limit] is the
    limiter of the world. *)
Record AsynchronousHTTPHandler : Type := mkHandler {
  auth : option Auth;
  client_auth : option Auth
}.

Definition base_headers : gmap string string :=
  <["Content-Type" := "application/json"]>
    (<["Accept" := "application/json"]> ∅).

(** The dict comprehension
    [{str(key): str(value) for key, value in kwargs.items() if value is not None}]. *)
Definition stringify (kwargs : gmap string pyobj) : gmap string string :=
  omap (fun v => if is_py_none v then None else Some (py_str v)) kwargs.

(** [get_headers]: later entries of the dict display win, so the caller's
    entries override the two fixed ones. *)
Definition get_headers (self : AsynchronousHTTPHandler) (requires_auth : bool)
    (kwargs : gmap string pyobj) : result (gmap string string) :=
  let headers := stringify kwargs ∪ base_headers in
  if requires_auth then
    match auth self with
    | None => Raise AttributeError
    | Some a => Ok (<["Authorization" := "Bearer " +:+ token a]> headers)
    end
  else Ok headers.

(** The call [self.get_headers(path.requires_auth, **headers)]: a key of
    [headers] that names a parameter of [get_headers] is a [TypeError]. *)
Definition call_get_headers (self : AsynchronousHTTPHandler) (requires_auth : bool)
    (headers : gmap string pyobj) : M (gmap string string) :=
  if is_none (headers !! "requires_auth") && is_none (headers !! "self")
  then lift (get_headers self requires_auth headers)
  else raise TypeError.

(** [getattr(requests, method)(url, headers=, data=, stream=, params=)] *)
Definition http (r : request) : M response :=
  emit (EvRequest r);; lift (transport r).

Definition auth_message : string :=
  "You need to be authenticated to do this action.".

Definition scope_message (scope_required : Scope) : string :=
  "You don't have the " +:+ scope_format scope_required
    +:+ " scope, which is required to do this action.".

(** [_make_request] *)
Definition _make_request (self : AsynchronousHTTPHandler) (method : verb)
    (p : Path) (data : option (gmap string pyobj))
    (headers : option (gmap string pyobj)) (stream : bool)
    (kwargs : gmap string pyobj) : M Json :=
  let headers := default ∅ headers in
  let data := default ∅ data in
  if requires_auth p && is_none (client_auth self)
  then raise (ScopeException auth_message)
  else
    ready ← RateLimit.can_request;
    (if negb ready then RateLimit.wait else ret tt);;
    let scope_required := scope p in
    lacking ←
      (if requires_auth p then
         match client_auth self with
         | None => raise AttributeError
         | Some a =>
             ret (negb (scope_contains (auth_scope a) (scopes scope_required)))
         end
       else ret false);
    if (lacking : bool)
    then raise (ScopeException (scope_message scope_required))
    else
      headers ← call_get_headers self (requires_auth p) headers;
      response ← http (mkRequest method (base_url +:+ path p) headers data
                                  stream kwargs);
      RateLimit.request_used;;
      raise_for_status response;;
      lift (json response).

End Dispatcher.

(** The verb entry points bind [method] and pass everything else on. *)
Module Verbs.
Section Verbs.
Context `{Collaborators}.
Definition get := fun self => _make_request self GET.
Definition post := fun self => _make_request self POST.
Definition delete := fun self => _make_request self DELETE.
Definition patch := fun self => _make_request self PATCH.
Definition put := fun self => _make_request self PUT.
End Verbs.
End Verbs.


(** ** The constructor and the readiness check over binary64

    The same statements of [RateLimitHandler] with Python's floats as
    binary64 numbers: [-] and [+] round to nearest, [<] and [>=] are the
    IEEE comparisons; the integer 60 is the float 60.0. *)

Module Binary64.

Record RateLimitHandler : Type := mkRateLimitHandler {
  wait_limit : float;
  limit : Z;
  last_request : float;
  requests : list float
}.

Record world : Type := mkWorld {
  clk : nat -> float;
  ticks : nat;
  rate_limit : RateLimitHandler
}.

Definition set_requests (rs : list float) (rl : RateLimitHandler)
  : RateLimitHandler :=
  mkRateLimitHandler (wait_limit rl) (limit rl) (last_request rl) rs.

Definition M (A : Type) : Type := world -> result A * world.

Definition ret {A} (a : A) : M A := fun w => (Ok a, w).

Definition raise {A} (e : exn) : M A := fun w => (Raise e, w).

Definition bind {A B} (m : M A) (k : A -> M B) : M B :=
  fun w =>
    match m w with
    | (Ok a, w') => k a w'
    | (Raise e, w') => (Raise e, w')
    end.

#[global] Instance M_ret : MRet M := @ret.
#[global] Instance M_bind : MBind M := fun A B k m => bind m k.

(** [time.perf_counter()] *)
Definition perf_counter : M float :=
  fun w => (Ok (clk w (ticks w)), mkWorld (clk w) (S (ticks w)) (rate_limit w)).

Definition get_limiter : M RateLimitHandler := fun w => (Ok (rate_limit w), w).

Definition modify_limiter (f : RateLimitHandler -> RateLimitHandler) : M unit :=
  fun w => (Ok tt, mkWorld (clk w) (ticks w) (f (rate_limit w))).

(** [RateLimitHandler.__init__] *)
Definition init (request_wait_limit : float) (limit_per_minute : Z) : M unit :=
  t ← perf_counter;
  modify_limiter (fun _ =>
    mkRateLimitHandler request_wait_limit limit_per_minute
                       (t - request_wait_limit)%float []).

(** The body of [while True] in [reset]. *)
Fixpoint reset_loop (rs : list float) : M unit :=
  match rs with
  | [] => raise IndexError
  | r0 :: rest =>
      t ← perf_counter;
      if (r0 + 60 <? t)%float
      then modify_limiter (set_requests rest);; reset_loop rest
      else ret tt
  end.

(** [reset] *)
Definition reset : M unit :=
  rl ← get_limiter;
  if (length (requests rl) =? 0)%nat then ret tt
  else reset_loop (requests rl).

(** [can_request] *)
Definition can_request : M bool :=
  reset;;
  t ← perf_counter;
  rl ← get_limiter;
  ret ((wait_limit rl <=? t - last_request rl)%float
       && (Z.of_nat (length (requests rl)) <? limit rl)).

End Binary64.
(** * Vocabulary of the properties *)

(** ** The clock *)

(** [time.perf_counter] is monotone: a later reading is not smaller. *)
Definition clock_monotone (w : world) : Prop :=
  forall i j : nat, (i <= j)%nat -> (clk w i <= clk w j)%Q.

(** An entry is stale at time [now] when it left the 60 second window. *)
Definition stale (now r : Q) : Prop := (r + 60 < now)%Q.

(** Every entry of [rs] is stale at every reading the clock still gives. *)
Definition all_stale_from (w : world) (rs : list Q) : Prop :=
  forall r, r ∈ rs -> forall n, (ticks w <= n)%nat -> stale (clk w n) r.


(** ** The limiter as the specification words it *)

(** The pruning policy: drop entries from the front while
    [entry + windowSeconds < now], stop at the first entry that is not stale. *)
Fixpoint spec_prune (now : Q) (rs : list Q) : list Q :=
  match rs with
  | [] => []
  | r :: rest => if Qlt_bool (r + 60)%Q now then spec_prune now rest else rs
  end.

(** [isReady]: after pruning, the elapsed time since [lastRequestTime] is at
    least [minIntervalSeconds] and fewer than [maxPerWindow] entries remain. *)
Definition spec_isReady (rl : RateLimitHandler) (now : Q) : bool :=
  Qle_bool (wait_limit rl) (now - last_request rl)%Q
  && (Z.of_nat (length (spec_prune now (requests rl))) <? limit rl).

(** The clock gives the reading [now] from here on. *)
Definition clock_reads (w : world) (now : Q) : Prop :=
  forall n, (ticks w <= n)%nat -> clk w n = now.

(** ** The limiter's invariants *)

(** The history is ordered ascending by timestamp, oldest first. *)
Definition history_ascending (rl : RateLimitHandler) : Prop :=
  StronglySorted Qle (requests rl).

(** Every timestamp the limiter holds was read from the clock before now:
    none exceeds the reading the clock gives next. *)
Definition recorded_in_past (w : world) : Prop :=
  Forall (fun r => (r <= clk w (ticks w))%Q) (requests (rate_limit w)) /\
  (last_request (rate_limit w) <= clk w (ticks w))%Q.

(** The operations of the limiter. *)
Inductive limiter_op : Type :=
| OpRequestUsed
| OpReset
| OpCanRequest
| OpWait.

Definition run_op (op : limiter_op) : M unit :=
  match op with
  | OpRequestUsed => RateLimit.request_used
  | OpReset => RateLimit.reset
  | OpCanRequest => _ ← RateLimit.can_request; ret tt
  | OpWait => RateLimit.wait
  end.

(** A sequence of operations; an operation that raises does not stop the
    caller from using the limiter again. *)
Fixpoint run_ops (ops : list limiter_op) (w : world) : world :=
  match ops with
  | [] => w
  | op :: ops' => run_ops ops' (run_op op w).2
  end.

(** ** Concrete limiter states *)

Module Scenario.

(** A clock that reads 0 three times and 61 from then on. *)
Definition clock_0_then_61 (n : nat) : Q :=
  if (n <? 3)%nat then 0%Q else 61%Q.

Definition blank : RateLimitHandler := mkRateLimitHandler 0 0 0 [].

Definition w_start : world := mkWorld clock_0_then_61 0 blank [].

(** [RateLimitHandler(1, 2)] built at time 0, one [request_used] at time 0;
    the clock reads 61 from here on. *)
Definition w_one_old_request : world :=
  ((RateLimit.init 1 2;; RateLimit.request_used) w_start).2.

(** A clock that stands still at 0. *)
Definition w_frozen : world := mkWorld (fun _ => 0%Q) 0 blank [].

(** [RateLimitHandler(1, 2)] with one [request_used], all at time 0. *)
Definition w_just_used : world :=
  ((RateLimit.init 1 2;; RateLimit.request_used) w_frozen).2.

End Scenario.

(** ** The dispatcher *)

(** The requests a trace sent to the transport, in order. *)
Fixpoint network_calls (t : list event) : list request :=
  match t with
  | [] => []
  | EvRequest r :: t' => r :: network_calls t'
  | EvSleep _ :: t' => network_calls t'
  end.

(** The suspensions on [asyncio.sleep] in a trace, in order. *)
Fixpoint sleeps (t : list event) : list Q :=
  match t with
  | [] => []
  | EvSleep d :: t' => d :: sleeps t'
  | EvRequest _ :: t' => sleeps t'
  end.

Section Phases.
Context `{Collaborators}.

(** [_make_request] up to the transport call: the checks, the rate gate and
    the headers. *)
Definition before_call (self : AsynchronousHTTPHandler) (p : Path)
    (headers : option (gmap string pyobj)) : M (gmap string string) :=
  let headers := default ∅ headers in
  if requires_auth p && is_none (client_auth self)
  then raise (ScopeException auth_message)
  else
    ready ← RateLimit.can_request;
    (if negb ready then RateLimit.wait else ret tt);;
    lacking ←
      (if requires_auth p then
         match client_auth self with
         | None => raise AttributeError
         | Some a =>
             ret (negb (scope_contains (auth_scope a) (scopes (scope p))))
         end
       else ret false);
    if (lacking : bool)
    then raise (ScopeException (scope_message (scope p)))
    else call_get_headers self (requires_auth p) headers.

(** [_make_request] from the response on. *)
Definition after_call (r : response) : M Json :=
  RateLimit.request_used;;
  raise_for_status r;;
  lift (json r).

End Phases.

(** ** Concrete collaborators *)

Module Demo.

(** Scope objects as lists of scope names; [scopes] is the names joined by
    spaces, the [in] test looks the value up among the granted names; the
    transport answers every request with [reply]. *)
Definition collaborators (reply : result response) : Collaborators := {|
  Scope := list string;
  ScopeValue := string;
  scopes := String.concat " ";
  scope_contains := fun granted v => bool_decide (v ∈ granted);
  scope_format := String.concat " ";
  base_url := "https://osu.ppy.sh/api/v2/";
  Json := string;
  transport := fun _ => reply;
  json := fun r => Ok (body r)
|}.

Definition not_found : Collaborators :=
  collaborators (Ok (mkResponse 404 "{}")).

Definition public_auth : @Auth not_found :=
  @mkAuth not_found "secret" ["public"].

Definition handler : @AsynchronousHTTPHandler not_found :=
  @mkHandler not_found (Some public_auth) (Some public_auth).

Definition anonymous : @AsynchronousHTTPHandler not_found :=
  @mkHandler not_found None None.

(** An endpoint that needs the [identify] scope. *)
Definition me : @Path not_found := @mkPath not_found "me" true ["identify"].

(** An endpoint that needs the [public] scope. *)
Definition user : @Path not_found := @mkPath not_found "users/2" true ["public"].

End Demo.

(** ** A request that is answered with 404 *)

Module NotFoundRun.

(** A fresh [RateLimitHandler(1, 2)] under a clock standing at 0. *)
Definition w_fresh : world := (RateLimit.init 1 2 Scenario.w_frozen).2.

(** The request [get(user)] sends. *)
Definition sent : request :=
  mkRequest GET "https://osu.ppy.sh/api/v2/users/2"
    (<["Authorization" := "Bearer secret"]>
       (<["Content-Type" := "application/json"]>
          (<["Accept" := "application/json"]> ∅)))
    ∅ false ∅.

Definition run : result string * world :=
  @_make_request Demo.not_found Demo.handler GET Demo.user None None false ∅
    w_fresh.

End NotFoundRun.

(** ** More limiter states *)

Module Scenario2.

(** A clock that stands still at 100. *)
Definition at_100 (rl : RateLimitHandler) : world :=
  mkWorld (fun _ => 100%Q) 0 rl [].

(** Interval 1, at most 2 per window; entries at 10 and 20 left the window,
    the entry at 70 is inside it. *)
Definition w_mixed : world :=
  at_100 (mkRateLimitHandler 1 2 70 [10%Q; 20%Q; 70%Q]).

(** Every entry left the window. *)
Definition w_all_old : world :=
  at_100 (mkRateLimitHandler 1 2 20 [10%Q; 20%Q]).

(** The window is full: two entries inside it, the last one long enough ago
    for the interval. *)
Definition w_full : world :=
  at_100 (mkRateLimitHandler 1 2 90 [80%Q; 90%Q]).

End Scenario2.

(** ** When an invocation reaches the transport *)

Section Conditions.
Context `{Collaborators}.

(** The two checks of [_make_request] pass: the endpoint needs no
    credential, or [client.auth] is there and holds the scope. *)
Definition checks_pass (self : AsynchronousHTTPHandler) (p : Path) : Prop :=
  requires_auth p = true ->
  exists a : Auth,
    client_auth self = Some a /\
    scope_contains (auth_scope a) (scopes (scope p)) = true.

(** The rate gate lets the invocation through: the readiness check returns,
    and if it says no, [wait] can run. *)
Definition gate_passes (w : world) : Prop :=
  exists ready : bool,
    (RateLimit.can_request w).1 = Ok ready /\
    (ready = true \/ 1 <= limit (rate_limit w)).

(** No key of the caller's headers names a parameter of [get_headers]. *)
Definition plain_keys (headers : gmap string pyobj) : Prop :=
  headers !! "requires_auth" = None /\ headers !! "self" = None.

(** The request [_make_request] hands to the transport. *)
Definition request_of (method : verb) (p : Path) (hs : gmap string string)
    (data : option (gmap string pyobj)) (stream : bool)
    (kwargs : gmap string pyobj) : request :=
  mkRequest method (base_url +:+ path p) hs (default ∅ data) stream kwargs.

End Conditions.

Module Demo2.

(** The transport answers every request with status 200 and a body. *)
Definition found : Collaborators :=
  Demo.collaborators (Ok (mkResponse 200 "{id: 2}")).

(** The transport fails to connect. *)
Definition unreachable : Collaborators :=
  Demo.collaborators (Raise TransportError).

Definition public_auth (c : result response) : @Auth (Demo.collaborators c) :=
  @mkAuth (Demo.collaborators c) "secret" ["public"].

Definition handler (c : result response)
  : @AsynchronousHTTPHandler (Demo.collaborators c) :=
  @mkHandler (Demo.collaborators c) (Some (public_auth c)) (Some (public_auth c)).

Definition user (c : result response) : @Path (Demo.collaborators c) :=
  @mkPath (Demo.collaborators c) "users/2" true ["public"].

(** A handler built without [auth] whose client holds a credential. *)
Definition half_built (c : result response)
  : @AsynchronousHTTPHandler (Demo.collaborators c) :=
  @mkHandler (Demo.collaborators c) None (Some (public_auth c)).

End Demo2.

(** ** A fresh limiter over binary64 *)

Module Binary64Scenario.

#[local] Set Warnings "-inexact-float".

(** A clock whose readings are all 100.3 (the nearest binary64 number). *)
Definition w_still : Binary64.world :=
  Binary64.mkWorld (fun _ => 100.3%float) 0
    (Binary64.mkRateLimitHandler 0 0 0 []).

(** [RateLimitHandler(0.1, 60)] built under that clock. *)
Definition w_fresh : Binary64.world := (Binary64.init 0.1 60 w_still).2.

End Binary64Scenario.
(** * Properties *)

(** ** Reasoning about the monad *)

Ltac munfold :=
  unfold mbind, M_bind, bind, mret, M_ret, ret, raise, lift, perf_counter,
    get_limiter, modify_limiter, emit, asyncio_sleep, set_rate_limit in *.

Lemma Qlt_bool_iff (a b : Q) : Qlt_bool a b = true <-> (a < b)%Q.
Proof.
  unfold Qlt_bool. rewrite negb_true_iff.
  destruct (Qle_bool b a) eqn:E.
  - apply Qle_bool_iff in E. split; [discriminate | intros; lra].
  - split; [intros _ | reflexivity].
    destruct (Qlt_le_dec a b) as [L | L]; [exact L |].
    apply Qle_bool_iff in L. congruence.
Qed.

Lemma Qlt_bool_false_iff (a b : Q) : Qlt_bool a b = false <-> (b <= a)%Q.
Proof.
  unfold Qlt_bool. rewrite negb_false_iff. apply Qle_bool_iff.
Qed.

(** ** The pruning pass *)

Module ResetFacts.
Import RateLimit.

(** What no run of the loop touches. *)
Lemma reset_loop_frame (rs : list Q) (w : world) :
  let w' := (reset_loop rs w).2 in
  clk w' = clk w /\ trace w' = trace w /\
  wait_limit (rate_limit w') = wait_limit (rate_limit w) /\
  limit (rate_limit w') = limit (rate_limit w) /\
  last_request (rate_limit w') = last_request (rate_limit w) /\
  (ticks w <= ticks w')%nat.
Proof.
  revert w. induction rs as [| r0 rest IH]; intros w; simpl.
  - munfold. simpl. repeat split; lia.
  - munfold. simpl.
    destruct (Qlt_bool (r0 + 60) (clk w (ticks w))); simpl.
    + match goal with |- context [reset_loop rest ?w1] =>
        specialize (IH w1) end.
      simpl in IH. destruct IH as (? & ? & ? & ? & ? & ?).
      repeat split; try assumption; lia.
    + repeat split; lia.
Qed.

(** The history left by the loop is a suffix of the history it started on. *)
Lemma reset_loop_suffix (rs : list Q) (w : world) :
  requests (rate_limit w) = rs ->
  requests (rate_limit (reset_loop rs w).2) `suffix_of` rs.
Proof.
  revert w. induction rs as [| r0 rest IH]; intros w E; simpl.
  - munfold. simpl. rewrite E. reflexivity.
  - munfold. simpl.
    destruct (Qlt_bool (r0 + 60) (clk w (ticks w))); simpl.
    + apply suffix_cons_r. apply IH. reflexivity.
    + rewrite E. reflexivity.
Qed.

(** When every entry is stale the loop pops them all and then reads
    [self.requests[0]] on the empty list. *)
Lemma reset_loop_all_stale (rs : list Q) (w : world) :
  requests (rate_limit w) = rs ->
  all_stale_from w rs ->
  (reset_loop rs w).1 = Raise IndexError /\
  requests (rate_limit (reset_loop rs w).2) = [] /\
  ticks (reset_loop rs w).2 = (ticks w + length rs)%nat.
Proof.
  revert w. induction rs as [| r0 rest IH]; intros w E St; simpl.
  - munfold. simpl. repeat split; [assumption | lia].
  - munfold. simpl.
    assert (L : Qlt_bool (r0 + 60) (clk w (ticks w)) = true).
    { apply Qlt_bool_iff. apply (St r0); [left | lia]. }
    rewrite L. simpl.
    match goal with |- context [reset_loop rest ?w1] =>
      destruct (IH w1) as (R1 & R2 & R3) end.
    + reflexivity.
    + intros r Hr n Hn. simpl in Hn. apply (St r); [right; exact Hr | lia].
    + simpl in R3. repeat split; [assumption | assumption | lia].
Qed.

(** When the history is a run of entries that are stale at their readings
    followed by an entry that is not, the loop pops the run and stops. *)
Lemma reset_loop_stops (pre : list Q) (r : Q) (post : list Q) (w : world) :
  requests (rate_limit w) = pre ++ r :: post ->
  (forall (i : nat) (x : Q), pre !! i = Some x ->
     stale (clk w (ticks w + i)) x) ->
  ~ stale (clk w (ticks w + length pre)) r ->
  (reset_loop (pre ++ r :: post) w).1 = Ok tt /\
  requests (rate_limit (reset_loop (pre ++ r :: post) w).2) = r :: post /\
  ticks (reset_loop (pre ++ r :: post) w).2 = S (ticks w + length pre).
Proof.
  revert w. induction pre as [| p pre IH]; intros w E St NSt; simpl.
  - munfold. simpl. simpl in NSt. rewrite Nat.add_0_r in NSt.
    destruct (Qlt_bool (r + 60) (clk w (ticks w))) eqn:L.
    + apply Qlt_bool_iff in L. contradiction.
    + simpl. repeat split; [exact E | lia].
  - munfold. simpl.
    assert (L : Qlt_bool (p + 60) (clk w (ticks w)) = true).
    { apply Qlt_bool_iff. specialize (St 0%nat p eq_refl).
      rewrite Nat.add_0_r in St. exact St. }
    rewrite L. simpl.
    match goal with |- context [reset_loop (pre ++ r :: post) ?w1] =>
      destruct (IH w1) as (R1 & R2 & R3) end.
    + reflexivity.
    + intros i x Hi. specialize (St (S i) x Hi). cbn [ticks].
      replace (S (ticks w) + i)%nat with (ticks w + S i)%nat by lia. exact St.
    + cbn [ticks]. cbn [length] in NSt.
      replace (S (ticks w) + length pre)%nat
        with (ticks w + S (length pre))%nat by lia. exact NSt.
    + simpl in R3. repeat split; [assumption | assumption | lia].
Qed.

End ResetFacts.

Module LimiterFacts.
Import RateLimit ResetFacts.

Lemma reset_empty (w : world) :
  requests (rate_limit w) = [] -> reset w = (Ok tt, w).
Proof.
  intros E. unfold reset. munfold. rewrite E. reflexivity.
Qed.

Lemma reset_nonempty (w : world) :
  requests (rate_limit w) <> [] ->
  reset w = reset_loop (requests (rate_limit w)) w.
Proof.
  intros NE. unfold reset. munfold.
  destruct (requests (rate_limit w)) as [| r0 rest]; [congruence | reflexivity].
Qed.

Lemma reset_stops (pre : list Q) (r : Q) (post : list Q) (w : world) :
  requests (rate_limit w) = pre ++ r :: post ->
  (forall (i : nat) (x : Q), pre !! i = Some x ->
     stale (clk w (ticks w + i)) x) ->
  ~ stale (clk w (ticks w + length pre)) r ->
  (reset w).1 = Ok tt /\
  requests (rate_limit (reset w).2) = r :: post /\
  ticks (reset w).2 = S (ticks w + length pre).
Proof.
  intros E St NSt. rewrite reset_nonempty.
  - rewrite E. apply reset_loop_stops; assumption.
  - rewrite E. destruct pre; discriminate.
Qed.

Lemma reset_all_stale (w : world) :
  requests (rate_limit w) <> [] ->
  all_stale_from w (requests (rate_limit w)) ->
  (reset w).1 = Raise IndexError /\
  requests (rate_limit (reset w).2) = [].
Proof.
  intros NE St. rewrite reset_nonempty by exact NE.
  destruct (reset_loop_all_stale _ w eq_refl St) as (R1 & R2 & _).
  split; assumption.
Qed.

(** What [reset] never touches, whatever its outcome. *)
Lemma reset_frame (w : world) :
  let w' := (reset w).2 in
  clk w' = clk w /\ trace w' = trace w /\
  wait_limit (rate_limit w') = wait_limit (rate_limit w) /\
  limit (rate_limit w') = limit (rate_limit w) /\
  last_request (rate_limit w') = last_request (rate_limit w) /\
  (ticks w <= ticks w')%nat /\
  requests (rate_limit w') `suffix_of` requests (rate_limit w).
Proof.
  destruct (requests (rate_limit w)) as [| r0 rest] eqn:E.
  - rewrite (reset_empty w E). simpl. rewrite E. repeat split; try lia.
    reflexivity.
  - rewrite reset_nonempty by (rewrite E; discriminate).
    pose proof (reset_loop_frame (requests (rate_limit w)) w) as F.
    pose proof (reset_loop_suffix (requests (rate_limit w)) w eq_refl) as S.
    simpl in F. destruct F as (? & ? & ? & ? & ? & ?).
    rewrite E in *. repeat split; assumption.
Qed.

(** [can_request] is [reset] followed by one reading of the clock. *)
Lemma can_request_after_reset (w : world) :
  (reset w).1 = Ok tt ->
  let w1 := (reset w).2 in
  can_request w =
    (Ok (Qle_bool (wait_limit (rate_limit w1))
                  (clk w1 (ticks w1) - last_request (rate_limit w1))%Q
         && (Z.of_nat (length (requests (rate_limit w1))) <? limit (rate_limit w1))),
     mkWorld (clk w1) (S (ticks w1)) (rate_limit w1) (trace w1)).
Proof.
  intros R. unfold can_request. munfold.
  destruct (reset w) as [[[] | e] w1]; simpl in *; [reflexivity | discriminate].
Qed.

Lemma can_request_reset_raises (w : world) (e : exn) :
  (reset w).1 = Raise e -> can_request w = (Raise e, (reset w).2).
Proof.
  intros R. unfold can_request. munfold.
  destruct (reset w) as [[[] | e'] w1]; simpl in *; [discriminate | congruence].
Qed.

End LimiterFacts.

(** ** The clock of the concrete states *)

Module ScenarioFacts.
Import Scenario.

Lemma clock_0_then_61_late (n : nat) :
  (3 <= n)%nat -> clock_0_then_61 n = 61%Q.
Proof.
  intros Hn. unfold clock_0_then_61.
  destruct (Nat.ltb_spec n 3); [lia | reflexivity].
Qed.

Lemma w_one_old_request_all_stale :
  all_stale_from w_one_old_request (requests (rate_limit w_one_old_request)).
Proof.
  intros r Hr n Hn. change (ticks w_one_old_request) with 3%nat in Hn.
  change (clk w_one_old_request n) with (clock_0_then_61 n).
  rewrite clock_0_then_61_late by exact Hn.
  change (requests (rate_limit w_one_old_request)) with [0%Q] in Hr.
  apply list_elem_of_singleton in Hr. subst r. reflexivity.
Qed.

Lemma clock_0_then_61_monotone (i j : nat) :
  (i <= j)%nat -> (clock_0_then_61 i <= clock_0_then_61 j)%Q.
Proof.
  intros Hij. unfold clock_0_then_61.
  destruct (Nat.ltb_spec i 3), (Nat.ltb_spec j 3); try lia;
    unfold Qle; simpl; lia.
Qed.

End ScenarioFacts.

(** ** C1: the pruning pass on a history that is stale throughout *)

(** C1.  The claim: for every non-empty history and time, the pruning pass
    removes the stale entries from the front, stops at the first entry that is
    not stale and returns normally, also when every entry is stale.
    The code: when the history is not empty and every entry in it is stale,
    [reset] pops them all, then evaluates [self.requests[0]] on the empty
    list and raises [IndexError]; the history it leaves is empty. *)
Theorem reset_all_stale_raises (w : world) :
  requests (rate_limit w) <> [] ->
  all_stale_from w (requests (rate_limit w)) ->
  (RateLimit.reset w).1 = Raise IndexError /\
  requests (rate_limit (RateLimit.reset w).2) = [].
Proof.
  exact (LimiterFacts.reset_all_stale w).
Qed.

Lemma reset_all_stale_raises_witness :
  (RateLimit.reset Scenario.w_one_old_request).1 = Raise IndexError /\
  requests (rate_limit (RateLimit.reset Scenario.w_one_old_request).2) = [].
Proof.
  apply (reset_all_stale_raises Scenario.w_one_old_request).
  - discriminate.
  - exact ScenarioFacts.w_one_old_request_all_stale.
Defined.

(** X3.  The part of C1 the code keeps: with an entry that is not stale the pass
    pops exactly the stale run before it and returns. *)
Lemma reset_prefix_trim (pre : list Q) (r : Q) (post : list Q) (w : world) :
  requests (rate_limit w) = pre ++ r :: post ->
  (forall (i : nat) (x : Q), pre !! i = Some x ->
     stale (clk w (ticks w + i)) x) ->
  ~ stale (clk w (ticks w + length pre)) r ->
  (RateLimit.reset w).1 = Ok tt /\
  requests (rate_limit (RateLimit.reset w).2) = r :: post.
Proof.
  intros E St NSt.
  destruct (LimiterFacts.reset_stops pre r post w E St NSt) as (? & ? & _).
  split; assumption.
Qed.

(** ** C4: the readiness check *)

Module ReadyFacts.
Import RateLimit.

(** With the clock standing at [now], the loop computes the prefix trim of
    the specification whenever an entry survives it. *)
Lemma reset_loop_refines_spec_prune (now : Q) (rs : list Q) (w : world) :
  requests (rate_limit w) = rs ->
  clock_reads w now ->
  spec_prune now rs <> [] ->
  (reset_loop rs w).1 = Ok tt /\
  requests (rate_limit (reset_loop rs w).2) = spec_prune now rs /\
  clock_reads (reset_loop rs w).2 now.
Proof.
  revert w. induction rs as [| r0 rest IH]; intros w E C NE; simpl in *.
  - congruence.
  - munfold. simpl. rewrite (C (ticks w)) by lia.
    destruct (Qlt_bool (r0 + 60) now) eqn:L; simpl.
    + apply IH; [reflexivity | | exact NE].
      intros n Hn. simpl in *. apply C. lia.
    + repeat split; [exact E |].
      intros n Hn. simpl in *. apply C. lia.
Qed.

Lemma spec_prune_nil_all_stale (now : Q) (rs : list Q) (w : world) :
  clock_reads w now -> spec_prune now rs = [] -> all_stale_from w rs.
Proof.
  intros C. induction rs as [| r0 rest IH]; simpl; intros P r Hr n Hn.
  - inversion Hr.
  - destruct (Qlt_bool (r0 + 60) now) eqn:L; [| discriminate].
    apply elem_of_cons in Hr. destruct Hr as [-> | Hr].
    + unfold stale. rewrite (C n Hn). apply Qlt_bool_iff. exact L.
    + apply IH; assumption.
Qed.

End ReadyFacts.

(** X5.  With the clock standing at [now] and a history that is empty or keeps an
    entry after the trim, [can_request] returns what the specification's
    [isReady] returns and leaves the trimmed history. *)
Lemma can_request_refines_spec (w : world) (now : Q) :
  clock_reads w now ->
  requests (rate_limit w) = [] \/ spec_prune now (requests (rate_limit w)) <> [] ->
  (RateLimit.can_request w).1 = Ok (spec_isReady (rate_limit w) now) /\
  requests (rate_limit (RateLimit.can_request w).2)
    = spec_prune now (requests (rate_limit w)).
Proof.
  intros C [E | NE].
  - pose proof (LimiterFacts.reset_empty w E) as R.
    rewrite LimiterFacts.can_request_after_reset by (rewrite R; reflexivity).
    rewrite R. simpl. unfold spec_isReady. rewrite E. simpl.
    rewrite (C (ticks w)) by lia. split; reflexivity.
  - assert (NE' : requests (rate_limit w) <> [])
      by (intros E; rewrite E in NE; simpl in NE; congruence).
    pose proof (LimiterFacts.reset_nonempty w NE') as R.
    destruct (ReadyFacts.reset_loop_refines_spec_prune now _ w eq_refl C NE)
      as (R1 & R2 & R3).
    pose proof (LimiterFacts.reset_frame w) as F. simpl in F.
    destruct F as (_ & _ & Fw & Fl & Flast & _ & _).
    rewrite LimiterFacts.can_request_after_reset by (rewrite R; exact R1).
    rewrite R in *. simpl. unfold spec_isReady.
    rewrite (R3 _ (Nat.le_refl _)), R2, Fw, Fl, Flast.
    split; reflexivity.
Qed.

(** C4.  The claim: for every limiter state and time [t], [isReady] prunes
    and then returns true exactly when [t - lastRequestTime] is at least the
    minimum interval and fewer than [maxPerWindow] entries remain; so after
    [recordUsage] calls at t1 <= ... <= tn it answers by the interval alone
    when fewer than [maxPerWindow] entries lie within the window of [t].
    The code: on a non-empty history whose entries are all stale,
    [can_request] returns nothing: the pruning pass it runs first raises
    [IndexError]. *)
Theorem can_request_all_stale_raises (w : world) :
  requests (rate_limit w) <> [] ->
  all_stale_from w (requests (rate_limit w)) ->
  (RateLimit.can_request w).1 = Raise IndexError.
Proof.
  intros NE St.
  destruct (LimiterFacts.reset_all_stale w NE St) as (R & _).
  rewrite (LimiterFacts.can_request_reset_raises w IndexError R). reflexivity.
Qed.

(** One [recordUsage] at time 0 on a limiter with interval 1 and at most 2
    requests per window, asked at time 61: the specification's [isReady] is
    true, [can_request] raises. *)
Lemma can_request_all_stale_raises_witness :
  spec_isReady (rate_limit Scenario.w_one_old_request) 61 = true /\
  (RateLimit.can_request Scenario.w_one_old_request).1 = Raise IndexError.
Proof.
  split.
  - reflexivity.
  - apply (can_request_all_stale_raises Scenario.w_one_old_request).
    + discriminate.
    + exact ScenarioFacts.w_one_old_request_all_stale.
Defined.

(** ** C10: a fresh limiter is ready *)

(** What the constructor aims at, over exact rationals: for a limiter just
    built with [limit_per_minute >= 1], [last_request] is the construction
    time minus [wait_limit], the history is empty, and [can_request] read
    next returns [True].  The subtraction cancels exactly only without
    rounding; over binary64 it need not, as shown next. *)
Theorem fresh_limiter_can_request
    (w : world) (request_wait_limit : Q) (limit_per_minute : Z) :
  1 <= limit_per_minute ->
  clock_monotone w ->
  let w1 := (RateLimit.init request_wait_limit limit_per_minute w).2 in
  requests (rate_limit w1) = [] /\
  last_request (rate_limit w1) = (clk w (ticks w) - request_wait_limit)%Q /\
  (RateLimit.can_request w1).1 = Ok true.
Proof.
  intros Hl Hm w1.
  assert (E : requests (rate_limit w1) = []) by reflexivity.
  assert (L : last_request (rate_limit w1)
              = (clk w (ticks w) - request_wait_limit)%Q) by reflexivity.
  split; [exact E | split; [exact L |]].
  rewrite LimiterFacts.can_request_after_reset
    by (rewrite (LimiterFacts.reset_empty w1 E); reflexivity).
  rewrite (LimiterFacts.reset_empty w1 E). cbn [fst snd].
  rewrite E, L. f_equal. apply andb_true_intro. split.
  - apply Qle_bool_iff.
    pose proof (Hm (ticks w) (S (ticks w)) (Nat.le_succ_diag_r _)) as Ht.
    change (clk w1 (ticks w1)) with (clk w (S (ticks w))).
    change (wait_limit (rate_limit w1)) with request_wait_limit. lra.
  - apply Z.ltb_lt. change (limit (rate_limit w1)) with limit_per_minute.
    simpl. lia.
Qed.

Lemma fresh_limiter_can_request_witness :
  (RateLimit.can_request
     (RateLimit.init (1 # 2) 60 Scenario.w_start).2).1 = Ok true.
Proof.
  apply (fresh_limiter_can_request Scenario.w_start (1 # 2) 60).
  - lia.
  - exact ScenarioFacts.clock_0_then_61_monotone.
Defined.

(** C10.  The claim: a limiter just built with [limit_per_minute >= 1]
    answers [True] to [can_request] at once.  The code, over binary64: for
    [RateLimitHandler(0.1, 60)] built when the clock reads 100.3 and asked
    while the clock still reads 100.3, [last_request] is the rounded
    [100.3 - 0.1], the interval test computes
    [100.3 - last_request = 0.0999...] which is below [0.1], and
    [can_request] returns [False]. *)
Theorem fresh_limiter_not_ready_binary64 :
  Binary64.requests (Binary64.rate_limit Binary64Scenario.w_fresh) = [] /\
  Binary64.limit (Binary64.rate_limit Binary64Scenario.w_fresh) = 60 /\
  (Binary64.can_request Binary64Scenario.w_fresh).1 = Ok false.
Proof.
  split; [reflexivity | split; [reflexivity |]].
  vm_compute. reflexivity.
Qed.

(** ** C5: the wait computation *)

Lemma py_max_Qmax (a b : Q) : (py_max a b == Qmax a b)%Q.
Proof.
  unfold py_max. destruct (Qlt_bool a b) eqn:L.
  - apply Qlt_bool_iff in L. symmetry. apply Q.max_r. lra.
  - apply Qlt_bool_false_iff in L. symmetry. apply Q.max_l. exact L.
Qed.

(** C5.  With [limit >= 1], [wait] never raises and leaves the limiter as it
    is; the delay it passes to [asyncio.sleep] is
    [wait_limit - (now - last_request)] when the history holds fewer than
    [limit] entries, and the maximum of that and
    [requests[0] + 60 - now] when it holds [limit] or more.  A delay that is
    zero or negative is slept as no time at all. *)
Theorem wait_duration (w : world) :
  1 <= limit (rate_limit w) ->
  let rl := rate_limit w in
  let base := (wait_limit rl - (clk w (ticks w) - last_request rl))%Q in
  (RateLimit.wait w).1 = Ok tt /\
  rate_limit (RateLimit.wait w).2 = rl /\
  (Z.of_nat (length (requests rl)) < limit rl ->
   trace (RateLimit.wait w).2 = trace w ++ [EvSleep base]) /\
  (limit rl <= Z.of_nat (length (requests rl)) ->
   exists oldest d,
     head (requests rl) = Some oldest /\
     trace (RateLimit.wait w).2 = trace w ++ [EvSleep d] /\
     (d == Qmax base (oldest + 60 - clk w (S (ticks w))))%Q) /\
  (forall d : Q, (d <= 0)%Q -> effective_delay d = 0%Q).
Proof.
  intros Hl rl base. subst rl base. unfold RateLimit.wait. munfold.
  cbn [fst snd rate_limit ticks clk trace].
  destruct (Z.leb_spec (limit (rate_limit w))
                       (Z.of_nat (length (requests (rate_limit w))))) as [G | G].
  - destruct (requests (rate_limit w)) as [| r0 rest] eqn:E.
    + simpl in G. lia.
    + cbn. repeat split.
      * intros Hlt. cbn in *. lia.
      * intros _. eexists r0, _. repeat split. apply py_max_Qmax.
      * intros d Hd. unfold effective_delay.
        apply Qle_bool_iff in Hd. rewrite Hd. reflexivity.
  - cbn. repeat split.
    + intros Hge. lia.
    + intros d Hd. unfold effective_delay.
      apply Qle_bool_iff in Hd. rewrite Hd. reflexivity.
Qed.

Lemma wait_duration_witness :
  (RateLimit.wait Scenario.w_just_used).1 = Ok tt /\
  trace (RateLimit.wait Scenario.w_just_used).2 = [EvSleep (1 - (0 - 0))%Q].
Proof.
  destruct (wait_duration Scenario.w_just_used) as (R & _ & T & _).
  - vm_compute. discriminate.
  - split; [exact R |]. apply T. vm_compute. reflexivity.
Defined.

(** ** C9: the invariants of the limiter *)

Module InvariantFacts.
Import RateLimit.

Lemma StronglySorted_snoc (l : list Q) (t : Q) :
  StronglySorted Qle l -> Forall (fun r => (r <= t)%Q) l ->
  StronglySorted Qle (l ++ [t]).
Proof.
  induction 1 as [| x l S IH F]; intros B; simpl.
  - repeat constructor.
  - inversion B as [| ? ? Bx Bl]; subst. constructor.
    + apply IH. exact Bl.
    + apply Forall_app. split; [exact F | constructor; [exact Bx | constructor]].
Qed.

Lemma StronglySorted_suffix (l k : list Q) :
  k `suffix_of` l -> StronglySorted Qle l -> StronglySorted Qle k.
Proof.
  intros [pre ->]. induction pre as [| p pre IH]; simpl; intros S.
  - exact S.
  - apply IH. inversion S; assumption.
Qed.

Lemma Forall_suffix (P : Q -> Prop) (l k : list Q) :
  k `suffix_of` l -> Forall P l -> Forall P k.
Proof.
  intros [pre ->] F. apply Forall_app in F. apply F.
Qed.

(** An operation that only reads the clock and trims the history keeps the
    invariants. *)
Lemma trim_preserves (w w' : world) :
  clk w' = clk w ->
  (ticks w <= ticks w')%nat ->
  requests (rate_limit w') `suffix_of` requests (rate_limit w) ->
  last_request (rate_limit w') = last_request (rate_limit w) ->
  clock_monotone w -> recorded_in_past w -> history_ascending (rate_limit w) ->
  history_ascending (rate_limit w') /\
  (last_request (rate_limit w) <= last_request (rate_limit w'))%Q /\
  recorded_in_past w' /\ clock_monotone w'.
Proof.
  intros Ec Ht Su El Mo [Pr Pl] As.
  pose proof (Mo _ _ Ht) as Hc.
  split; [| split; [| split]].
  - eapply StronglySorted_suffix; eassumption.
  - rewrite El. apply Qle_refl.
  - split.
    + apply (Forall_suffix _ _ _ Su).
      eapply Forall_impl; [exact Pr |]. intros r Hr. simpl in Hr.
      rewrite Ec. lra.
    + rewrite El, Ec. lra.
  - unfold clock_monotone. rewrite Ec. exact Mo.
Qed.

Lemma request_used_preserves (w : world) :
  clock_monotone w -> recorded_in_past w -> history_ascending (rate_limit w) ->
  let w' := (request_used w).2 in
  history_ascending (rate_limit w') /\
  (last_request (rate_limit w) <= last_request (rate_limit w'))%Q /\
  recorded_in_past w' /\ clock_monotone w'.
Proof.
  intros Mo [Pr Pl] As w'.
  assert (Er : requests (rate_limit w')
               = requests (rate_limit w) ++ [clk w (ticks w)]) by reflexivity.
  assert (El : last_request (rate_limit w') = clk w (S (ticks w))) by reflexivity.
  assert (Ec : clk w' = clk w) by reflexivity.
  assert (Et : ticks w' = S (S (ticks w))) by reflexivity.
  pose proof (Mo (ticks w) (S (ticks w)) (Nat.le_succ_diag_r _)) as H1.
  pose proof (Mo (S (ticks w)) (S (S (ticks w))) (Nat.le_succ_diag_r _)) as H2.
  split; [| split; [| split]].
  - unfold history_ascending. rewrite Er.
    apply StronglySorted_snoc; assumption.
  - rewrite El. lra.
  - split.
    + rewrite Er, Ec, Et. apply Forall_app. split.
      * eapply Forall_impl; [exact Pr |]. intros r Hr. simpl in Hr. lra.
      * constructor; [lra | constructor].
    + rewrite El, Ec, Et. exact H2.
  - unfold clock_monotone. rewrite Ec. exact Mo.
Qed.

(** What [can_request] never touches, whatever its outcome. *)
Lemma can_request_frame (w : world) :
  let w' := (can_request w).2 in
  clk w' = clk w /\ (ticks w <= ticks w')%nat /\
  requests (rate_limit w') `suffix_of` requests (rate_limit w) /\
  last_request (rate_limit w') = last_request (rate_limit w).
Proof.
  pose proof (LimiterFacts.reset_frame w) as F. simpl in F.
  destruct F as (Fc & _ & _ & _ & Fl & Ft & Fs).
  destruct (reset w).1 as [[] | e] eqn:R.
  - rewrite LimiterFacts.can_request_after_reset by exact R.
    simpl. repeat split; try assumption. lia.
  - rewrite (LimiterFacts.can_request_reset_raises w e R).
    simpl. repeat split; assumption.
Qed.

(** [wait] reads the clock and sleeps; the limiter is as before. *)
Lemma wait_frame (w : world) :
  let w' := (wait w).2 in
  clk w' = clk w /\ (ticks w <= ticks w')%nat /\
  rate_limit w' = rate_limit w.
Proof.
  unfold wait. munfold. cbn [fst snd rate_limit ticks clk trace].
  destruct (limit (rate_limit w) <=? Z.of_nat (length (requests (rate_limit w)))).
  - destruct (requests (rate_limit w)); cbn; repeat split; lia.
  - cbn. repeat split; lia.
Qed.

(** One operation, whatever its outcome. *)
Lemma op_preserves (op : limiter_op) (w : world) :
  clock_monotone w -> recorded_in_past w -> history_ascending (rate_limit w) ->
  let w' := (run_op op w).2 in
  history_ascending (rate_limit w') /\
  (last_request (rate_limit w) <= last_request (rate_limit w'))%Q /\
  recorded_in_past w' /\ clock_monotone w'.
Proof.
  intros Mo Pa As. destruct op; simpl.
  - apply request_used_preserves; assumption.
  - pose proof (LimiterFacts.reset_frame w) as F. simpl in F.
    destruct F as (Fc & _ & _ & _ & Fl & Ft & Fs).
    apply (trim_preserves w); assumption.
  - pose proof (can_request_frame w) as F. simpl in F.
    destruct F as (Fc & Ft & Fs & Fl).
    assert (E : ((_ ← can_request; ret tt) w).2
                = (can_request w).2).
    { munfold. destruct (can_request w) as [[b | e] w1]; reflexivity. }
    rewrite E. apply (trim_preserves w); assumption.
  - pose proof (wait_frame w) as F. simpl in F.
    destruct F as (Fc & Ft & Fr).
    apply (trim_preserves w); try assumption;
      rewrite Fr; reflexivity.
Qed.

End InvariantFacts.

(** C9.  Under a monotone clock, and on a limiter whose timestamps were read
    from that clock, each operation of the limiter ([request_used], [reset],
    [can_request], [wait]), whatever its outcome, leaves the history ordered
    ascending and does not lower [last_request]; the timestamps it leaves
    were again read from the clock, so the invariants carry over to the next
    operation. *)
Theorem limiter_op_preserves_invariants (op : limiter_op) (w : world) :
  clock_monotone w -> recorded_in_past w -> history_ascending (rate_limit w) ->
  let w' := (run_op op w).2 in
  history_ascending (rate_limit w') /\
  (last_request (rate_limit w) <= last_request (rate_limit w'))%Q /\
  recorded_in_past w' /\ clock_monotone w'.
Proof.
  exact (InvariantFacts.op_preserves op w).
Qed.

Lemma limiter_op_preserves_invariants_witness :
  history_ascending
    (rate_limit (run_op OpRequestUsed Scenario.w_one_old_request).2) /\
  (last_request (rate_limit Scenario.w_one_old_request)
   <= last_request
        (rate_limit (run_op OpRequestUsed Scenario.w_one_old_request).2))%Q.
Proof.
  destruct (limiter_op_preserves_invariants OpRequestUsed
              Scenario.w_one_old_request) as (A & L & _).
  - exact ScenarioFacts.clock_0_then_61_monotone.
  - split.
    + repeat constructor. vm_compute. discriminate.
    + vm_compute. discriminate.
  - repeat constructor.
  - split; assumption.
Defined.

(** X13.  The constructor establishes the invariants when [wait_limit] is not
    negative. *)
Lemma init_establishes_invariants
    (w : world) (request_wait_limit : Q) (limit_per_minute : Z) :
  (0 <= request_wait_limit)%Q -> clock_monotone w ->
  let w1 := (RateLimit.init request_wait_limit limit_per_minute w).2 in
  history_ascending (rate_limit w1) /\ recorded_in_past w1 /\
  clock_monotone w1.
Proof.
  intros Hw Mo w1.
  pose proof (Mo (ticks w) (S (ticks w)) (Nat.le_succ_diag_r _)) as Ht.
  split; [constructor | split; [split; [constructor |] | exact Mo]].
  change (clk w (ticks w) - request_wait_limit <= clk w (S (ticks w)))%Q. lra.
Qed.

(** X14.  Along any sequence of operations the history stays ascending and
    [last_request] does not fall below its first value. *)
Lemma run_ops_preserves_invariants (ops : list limiter_op) (w : world) :
  clock_monotone w -> recorded_in_past w -> history_ascending (rate_limit w) ->
  history_ascending (rate_limit (run_ops ops w)) /\
  (last_request (rate_limit w) <= last_request (rate_limit (run_ops ops w)))%Q.
Proof.
  revert w. induction ops as [| op ops IH]; intros w Mo Pa As; simpl.
  - split; [exact As | apply Qle_refl].
  - destruct (InvariantFacts.op_preserves op w Mo Pa As)
      as (As' & L & Pa' & Mo').
    destruct (IH _ Mo' Pa' As') as (As'' & L'').
    split; [exact As'' | lra].
Qed.

(** ** C7: header construction *)

Lemma base_headers_lookup (key : string) :
  base_headers !! key =
    if bool_decide (key = "Content-Type") then Some "application/json"
    else if bool_decide (key = "Accept") then Some "application/json"
    else None.
Proof.
  unfold base_headers.
  repeat case_bool_decide; subst; simplify_map_eq; reflexivity.
Qed.

Lemma stringify_union_lookup (kwargs : gmap string pyobj) (key : string) :
  (stringify kwargs ∪ base_headers) !! key =
    match kwargs !! key with
    | Some v => if is_py_none v then base_headers !! key else Some (py_str v)
    | None => base_headers !! key
    end.
Proof.
  rewrite lookup_union. unfold stringify. rewrite lookup_omap.
  destruct (kwargs !! key) as [v |]; simpl.
  - destruct (is_py_none v); simpl.
    + destruct (base_headers !! key); reflexivity.
    + destruct (base_headers !! key); reflexivity.
  - destruct (base_headers !! key); reflexivity.
Qed.

(** C7.  [get_headers] merges the fixed entries
    [Content-Type: application/json] and [Accept: application/json] with the
    caller's entries; a caller's entry replaces a fixed one only when its
    value is not [None]; and with [requires_auth] the [Authorization] entry
    is [Bearer <token>] whatever the caller supplied under that key. *)
Theorem get_headers_merge `{Collaborators}
    (self : AsynchronousHTTPHandler) (requires_auth : bool)
    (kwargs : gmap string pyobj) (a : Auth) :
  (requires_auth = true -> auth self = Some a) ->
  exists headers : gmap string string,
    get_headers self requires_auth kwargs = Ok headers /\
    (forall key : string,
       requires_auth = false \/ key <> "Authorization" ->
       headers !! key =
         match kwargs !! key with
         | Some v =>
             if is_py_none v then base_headers !! key else Some (py_str v)
         | None => base_headers !! key
         end) /\
    (requires_auth = true ->
     headers !! "Authorization" = Some ("Bearer " +:+ token a)) /\
    base_headers !! "Content-Type" = Some "application/json" /\
    base_headers !! "Accept" = Some "application/json" /\
    (forall key : string,
       key <> "Content-Type" -> key <> "Accept" -> base_headers !! key = None).
Proof.
  intros Ha. unfold get_headers. destruct requires_auth.
  - rewrite (Ha eq_refl). eexists. split; [reflexivity |].
    split; [| split; [| split; [| split]]].
    + intros key [? | Hk]; [discriminate |].
      rewrite lookup_insert_ne by congruence.
      apply stringify_union_lookup.
    + intros _. apply lookup_insert_eq.
    + reflexivity.
    + reflexivity.
    + intros key H1 H2. rewrite base_headers_lookup.
      repeat case_bool_decide; congruence.
  - eexists. split; [reflexivity |].
    split; [| split; [| split; [| split]]].
    + intros key _. apply stringify_union_lookup.
    + discriminate.
    + reflexivity.
    + reflexivity.
    + intros key H1 H2. rewrite base_headers_lookup.
      repeat case_bool_decide; congruence.
Qed.

(** A caller that overrides [Content-Type], passes [Accept] as [None] and
    supplies an [Authorization] of its own. *)
Lemma get_headers_merge_witness :
  exists headers : gmap string string,
    @get_headers Demo.not_found Demo.handler true
      (<["Content-Type" := PyStr "text/plain"]>
         (<["Accept" := PyNone]>
            (<["Authorization" := PyStr "Basic x"]> ∅))) = Ok headers /\
    headers !! "Content-Type" = Some "text/plain" /\
    headers !! "Accept" = Some "application/json" /\
    headers !! "Authorization" = Some "Bearer secret".
Proof.
  destruct (@get_headers_merge Demo.not_found Demo.handler true
              (<["Content-Type" := PyStr "text/plain"]>
                 (<["Accept" := PyNone]>
                    (<["Authorization" := PyStr "Basic x"]> ∅)))
              Demo.public_auth (fun _ => eq_refl))
    as (headers & E & K & A & _).
  exists headers. split; [exact E |].
  split; [| split].
  - rewrite K by (right; discriminate). reflexivity.
  - rewrite K by (right; discriminate). reflexivity.
  - apply A. reflexivity.
Defined.

(** ** The dispatcher, phase by phase *)

Module DispatchFacts.
Import RateLimit.

Lemma network_calls_app (s t : list event) :
  network_calls (s ++ t) = network_calls s ++ network_calls t.
Proof.
  induction s as [| [d | r] s IH]; simpl; [reflexivity | exact IH |].
  rewrite IH. reflexivity.
Qed.

Lemma sleeps_app (s t : list event) :
  sleeps (s ++ t) = sleeps s ++ sleeps t.
Proof.
  induction s as [| [d | r] s IH]; simpl; [reflexivity | | exact IH].
  rewrite IH. reflexivity.
Qed.

(** The readiness check leaves the trace and the configuration alone. *)
Lemma can_request_keeps (w : world) :
  trace (can_request w).2 = trace w /\
  limit (rate_limit (can_request w).2) = limit (rate_limit w) /\
  clk (can_request w).2 = clk w.
Proof.
  pose proof (LimiterFacts.reset_frame w) as F. simpl in F.
  destruct F as (Fc & Ft & _ & Fl & _ & _ & _).
  destruct (reset w).1 as [[] | e] eqn:R.
  - rewrite LimiterFacts.can_request_after_reset by exact R.
    simpl. repeat split; assumption.
  - rewrite (LimiterFacts.can_request_reset_raises w e R).
    simpl. repeat split; assumption.
Qed.

(** [wait] adds at most one suspension to the trace and nothing else. *)
Lemma wait_trace (w : world) :
  rate_limit (wait w).2 = rate_limit w /\ clk (wait w).2 = clk w /\
  (trace (wait w).2 = trace w \/
   exists d, trace (wait w).2 = trace w ++ [EvSleep d]).
Proof.
  unfold wait. munfold. cbn [fst snd rate_limit ticks clk trace].
  destruct (limit (rate_limit w) <=? Z.of_nat (length (requests (rate_limit w)))).
  - destruct (requests (rate_limit w)); cbn; repeat split;
      [left; reflexivity | right; eexists; reflexivity].
  - cbn. repeat split. right. eexists. reflexivity.
Qed.

(** With [limit >= 1], [wait] returns after exactly one suspension. *)
Lemma wait_sleeps (w : world) :
  1 <= limit (rate_limit w) ->
  (wait w).1 = Ok tt /\ exists d, trace (wait w).2 = trace w ++ [EvSleep d].
Proof.
  intros Hl. unfold wait. munfold. cbn [fst snd rate_limit ticks clk trace].
  destruct (Z.leb_spec (limit (rate_limit w))
                       (Z.of_nat (length (requests (rate_limit w))))) as [G | G].
  - destruct (requests (rate_limit w)) as [| r0 rest].
    + simpl in G. lia.
    + cbn. split; [reflexivity | eexists; reflexivity].
  - cbn. split; [reflexivity | eexists; reflexivity].
Qed.

Section WithCollaborators.
Context `{Collaborators}.

(** [_make_request] is the three phases in a row. *)
Lemma make_request_phases (self : AsynchronousHTTPHandler) (method : verb)
    (p : Path) (data headers : option (gmap string pyobj)) (stream : bool)
    (kwargs : gmap string pyobj) (w : world) :
  _make_request self method p data headers stream kwargs w =
  match before_call self p headers w with
  | (Ok hs, w1) =>
      match http (mkRequest method (base_url +:+ path p) hs (default ∅ data)
                            stream kwargs) w1 with
      | (Ok r, w2) => after_call r w2
      | (Raise e, w2) => (Raise e, w2)
      end
  | (Raise e, w1) => (Raise e, w1)
  end.
Proof.
  unfold _make_request, before_call, after_call. munfold.
  destruct (requires_auth p && is_none (client_auth self)); [reflexivity |].
  destruct (can_request w) as [[ready | e] w1]; [| reflexivity].
  destruct (if negb ready then wait else _) as [[[] | e] w2]; [| reflexivity].
  destruct (if requires_auth p then _ else _) as [[lacking | e] w3];
    [| reflexivity].
  destruct lacking; [reflexivity |].
  destruct (call_get_headers _ _ _ w3) as [[hs | e] w4]; reflexivity.
Qed.

(** The first phase sends nothing, and when it gets past the rate gate the
    limiter is the one the readiness check left. *)
Lemma before_call_effects (self : AsynchronousHTTPHandler) (p : Path)
    (headers : option (gmap string pyobj)) (w : world) :
  let w1 := (before_call self p headers w).2 in
  network_calls (trace w1) = network_calls (trace w) /\
  clk w1 = clk w /\
  (forall hs, (before_call self p headers w).1 = Ok hs ->
     rate_limit w1 = rate_limit (can_request w).2).
Proof.
  unfold before_call. munfold.
  destruct (requires_auth p && is_none (client_auth self)).
  { cbn. split; [reflexivity | split; [reflexivity | discriminate]]. }
  destruct (can_request_keeps w) as (Kt & _ & Kc).
  destruct (can_request w) as [[ready | e] w1]; cbn [fst snd] in *.
  2: { rewrite Kt. split; [reflexivity | split; [assumption | discriminate]]. }
  assert (G : forall r w2, (if negb ready then wait else mret ()) w1 = (r, w2) ->
            network_calls (trace w2) = network_calls (trace w) /\
            clk w2 = clk w /\ rate_limit w2 = rate_limit w1).
  { intros r w2 E. destruct ready; cbn in E.
    - inversion E; subst. rewrite Kt.
      split; [reflexivity | split; [exact Kc | reflexivity]].
    - destruct (wait_trace w1) as (Wr & Wc & Wt). rewrite E in *.
      cbn [fst snd] in *. split; [| split; [congruence | exact Wr]].
      destruct Wt as [-> | [d ->]]; [congruence |].
      rewrite network_calls_app. simpl. rewrite app_nil_r. congruence. }
  destruct (if negb ready then wait else _) as [[[] | e] w2] eqn:E;
    destruct (G _ _ eq_refl) as (Gn & Gc & Gr); cbn [fst snd].
  2: { split; [assumption | split; [assumption | discriminate]]. }
  assert (L : forall r w3,
            (if requires_auth p
             then match client_auth self with
                  | Some a => fun w => (Ok (negb (scope_contains (auth_scope a)
                                                    (scopes (scope p)))), w)
                  | None => fun w => (Raise AttributeError, w)
                  end
             else fun w => (Ok false, w)) w2 = (r, w3) -> w3 = w2).
  { intros r w3. destruct (requires_auth p); [destruct (client_auth self) |];
      intros E'; inversion E'; reflexivity. }
  destruct (if requires_auth p then _ else _) as [[lacking | e] w3] eqn:E3;
    rewrite (L _ _ eq_refl); cbn [fst snd].
  2: { split; [assumption | split; [assumption | discriminate]]. }
  destruct lacking; cbn [fst snd].
  { split; [assumption | split; [assumption | discriminate]]. }
  unfold call_get_headers. munfold.
  destruct (is_none _ && is_none _); cbn [fst snd];
    (split; [assumption | split; [assumption | intros; exact Gr]]).
Qed.

(** An endpoint that needs a credential, and none is there: the first
    statement of [_make_request] raises and nothing else runs. *)
Lemma make_request_no_auth (self : AsynchronousHTTPHandler) (method : verb)
    (p : Path) (data headers : option (gmap string pyobj)) (stream : bool)
    (kwargs : gmap string pyobj) (w : world) :
  requires_auth p = true -> client_auth self = None ->
  _make_request self method p data headers stream kwargs w
    = (Raise (ScopeException auth_message), w).
Proof.
  intros Hr Hc. unfold _make_request. rewrite Hr, Hc. reflexivity.
Qed.

(** A credential that lacks the scope: the readiness check and, when the
    limiter is not ready, the wait run first; the scope test follows. *)
Lemma make_request_lacking_scope (self : AsynchronousHTTPHandler)
    (method : verb) (p : Path) (data headers : option (gmap string pyobj))
    (stream : bool) (kwargs : gmap string pyobj) (a : Auth) (w : world) :
  requires_auth p = true -> client_auth self = Some a ->
  scope_contains (auth_scope a) (scopes (scope p)) = false ->
  _make_request self method p data headers stream kwargs w =
  match can_request w with
  | (Ok true, w1) => (Raise (ScopeException (scope_message (scope p))), w1)
  | (Ok false, w1) =>
      match wait w1 with
      | (Ok _, w2) => (Raise (ScopeException (scope_message (scope p))), w2)
      | (Raise e, w2) => (Raise e, w2)
      end
  | (Raise e, w1) => (Raise e, w1)
  end.
Proof.
  intros Hr Hc Hs. unfold _make_request. rewrite Hr, Hc, Hs. munfold. simpl.
  destruct (can_request w) as [[[] | e] w1]; simpl; [reflexivity | | reflexivity].
  destruct (wait w1) as [[[] | e] w2]; reflexivity.
Qed.

(** What [request_used] does to the world. *)
Lemma request_used_effects (w : world) :
  request_used w =
  (Ok tt,
   mkWorld (clk w) (S (S (ticks w)))
     (mkRateLimitHandler (wait_limit (rate_limit w)) (limit (rate_limit w))
        (clk w (S (ticks w)))
        (requests (rate_limit w) ++ [clk w (ticks w)]))
     (trace w)).
Proof. reflexivity. Qed.

(** The last phase: usage is recorded before the status is looked at. *)
Lemma after_call_effects (r : response) (w : world) :
  (after_call r w).2 = (request_used w).2 /\
  (400 <= status_code r < 600 ->
   (after_call r w).1 = Raise (HTTPError (status_code r))).
Proof.
  unfold after_call. munfold. rewrite request_used_effects.
  unfold raise_for_status. munfold.
  destruct (Z.leb_spec 400 (status_code r)), (Z.ltb_spec (status_code r) 600);
    simpl; (split; [try reflexivity | intros; try lia; try reflexivity]);
    destruct (json r); reflexivity.
Qed.

End WithCollaborators.
End DispatchFacts.

(** ** C6: an endpoint that needs a credential, without one *)

(** C6.  On an endpoint with [requires_auth] and with [client.auth] being
    [None], [_make_request] raises the authentication error and leaves the
    world as it found it: no transport call, no clock reading, the limiter's
    history and [last_request] untouched. *)
Theorem make_request_unauthenticated `{Collaborators}
    (self : AsynchronousHTTPHandler) (method : verb) (p : Path)
    (data headers : option (gmap string pyobj)) (stream : bool)
    (kwargs : gmap string pyobj) (w : world) :
  requires_auth p = true -> client_auth self = None ->
  _make_request self method p data headers stream kwargs w
    = (Raise (ScopeException auth_message), w).
Proof.
  apply DispatchFacts.make_request_no_auth.
Qed.

Lemma make_request_unauthenticated_witness :
  @_make_request Demo.not_found Demo.anonymous GET Demo.me None None false ∅
    Scenario.w_just_used
  = (Raise (ScopeException
              "You need to be authenticated to do this action."),
     Scenario.w_just_used).
Proof.
  apply (@make_request_unauthenticated Demo.not_found); reflexivity.
Defined.

(** ** C2: where the rate gate stands between the two checks *)

(** C2, as claimed: an invocation that fails the scope check never suspends
    on the limiter.  The code: with the limiter not ready (a request was
    recorded at this very instant and [wait_limit] is 1) and a credential
    that holds [public] on an endpoint that needs [identify],
    [_make_request] first suspends for one second and then raises the scope
    error. *)
Lemma scope_failure_suspends_first :
  let run := @_make_request Demo.not_found Demo.handler GET Demo.me
               None None false ∅ Scenario.w_just_used in
  run.1 = Raise (ScopeException
    "You don't have the identify scope, which is required to do this action.")
  /\ sleeps (trace Scenario.w_just_used) = []
  /\ sleeps (trace run.2) = [(1 - (0 - 0))%Q].
Proof.
  cbv zeta. split; [| split]; vm_compute; reflexivity.
Qed.

(** C2, amended.  On an endpoint with [requires_auth]: without a credential
    [_make_request] raises the authentication error before the rate gate and
    so without suspending; with a credential that lacks the scope it reaches
    the scope check after the rate gate: when the limiter is ready it raises
    the scope error without suspending, and when the limiter is not ready
    (and [limit >= 1]) it suspends once on [wait] and then raises the scope
    error. *)
Theorem scope_check_follows_rate_gate `{Collaborators}
    (self : AsynchronousHTTPHandler) (method : verb) (p : Path)
    (data headers : option (gmap string pyobj)) (stream : bool)
    (kwargs : gmap string pyobj) (w : world) :
  requires_auth p = true ->
  let run := _make_request self method p data headers stream kwargs w in
  (client_auth self = None ->
   run.1 = Raise (ScopeException auth_message) /\
   sleeps (trace run.2) = sleeps (trace w)) /\
  (forall a : Auth,
     client_auth self = Some a ->
     scope_contains (auth_scope a) (scopes (scope p)) = false ->
     ((RateLimit.can_request w).1 = Ok true ->
      run.1 = Raise (ScopeException (scope_message (scope p))) /\
      sleeps (trace run.2) = sleeps (trace w)) /\
     ((RateLimit.can_request w).1 = Ok false ->
      1 <= limit (rate_limit w) ->
      run.1 = Raise (ScopeException (scope_message (scope p))) /\
      exists d : Q, sleeps (trace run.2) = sleeps (trace w) ++ [d])).
Proof.
  intros Hr run. subst run. split.
  - intros Hc. rewrite DispatchFacts.make_request_no_auth by assumption.
    split; reflexivity.
  - intros a Hc Hs.
    rewrite (DispatchFacts.make_request_lacking_scope _ _ _ _ _ _ _ a)
      by assumption.
    destruct (DispatchFacts.can_request_keeps w) as (Kt & Kl & _).
    destruct (RateLimit.can_request w) as [[ready | e] w1]; cbn [fst snd] in *.
    2: { split; intros; discriminate. }
    split; intros Hb; injection Hb as ->; cbn [fst snd].
    + split; [reflexivity | rewrite Kt; reflexivity].
    + intros Hl. destruct (DispatchFacts.wait_sleeps w1) as (W1 & d & W2).
      { rewrite Kl. exact Hl. }
      destruct (RateLimit.wait w1) as [[[] | e] w2]; cbn [fst snd] in *;
        [| discriminate].
      split; [reflexivity |]. exists d.
      rewrite W2, DispatchFacts.sleeps_app, Kt. reflexivity.
Qed.

Lemma scope_check_follows_rate_gate_witness :
  let run := @_make_request Demo.not_found Demo.handler GET Demo.me
               None None false ∅ Scenario.w_just_used in
  run.1 = Raise (ScopeException (@scope_message Demo.not_found ["identify"]))
  /\ exists d : Q, sleeps (trace run.2) = [] ++ [d].
Proof.
  destruct (@scope_check_follows_rate_gate Demo.not_found Demo.handler GET
              Demo.me None None false ∅ Scenario.w_just_used eq_refl)
    as (_ & S).
  destruct (S Demo.public_auth eq_refl eq_refl) as (_ & N).
  apply N.
  - vm_compute. reflexivity.
  - vm_compute. discriminate.
Defined.

(** ** C3: a credential that lacks the scope *)

(** X19.  The part of C3 the code keeps: when the readiness check returns, and the
    limiter is ready or [limit >= 1], the invocation raises the scope error
    whose message carries the formatted scope, and nothing is sent. *)
Lemma make_request_insufficient_scope `{Collaborators}
    (self : AsynchronousHTTPHandler) (method : verb) (p : Path)
    (data headers : option (gmap string pyobj)) (stream : bool)
    (kwargs : gmap string pyobj) (a : Auth) (w : world) (ready : bool) :
  requires_auth p = true -> client_auth self = Some a ->
  scope_contains (auth_scope a) (scopes (scope p)) = false ->
  (RateLimit.can_request w).1 = Ok ready ->
  ready = true \/ 1 <= limit (rate_limit w) ->
  let run := _make_request self method p data headers stream kwargs w in
  run.1 = Raise (ScopeException (scope_message (scope p))) /\
  network_calls (trace run.2) = network_calls (trace w).
Proof.
  intros Hr Hc Hs Hb Hl run. subst run.
  rewrite (DispatchFacts.make_request_lacking_scope _ _ _ _ _ _ _ a)
    by assumption.
  destruct (DispatchFacts.can_request_keeps w) as (Kt & Kl & _).
  destruct (RateLimit.can_request w) as [[b | e] w1]; cbn [fst snd] in *;
    [| discriminate].
  injection Hb as ->. destruct ready; cbn [fst snd].
  - split; [reflexivity | rewrite Kt; reflexivity].
  - destruct Hl as [? | Hl]; [discriminate |].
    destruct (DispatchFacts.wait_sleeps w1) as (W1 & d & W2).
    { rewrite Kl. exact Hl. }
    destruct (RateLimit.wait w1) as [[[] | e] w2]; cbn [fst snd] in *;
      [| discriminate].
    split; [reflexivity |].
    rewrite W2, DispatchFacts.network_calls_app, Kt. simpl.
    apply app_nil_r.
Qed.

(** C3.  The claim: with a credential that lacks the endpoint's scope,
    every invocation fails with the scope error.  The code: when the
    limiter's history is not empty and stale throughout, the readiness check
    that runs before the scope check raises [IndexError], and that is what
    the invocation fails with; nothing is sent. *)
Theorem make_request_lacking_scope_stale_history `{Collaborators}
    (self : AsynchronousHTTPHandler) (method : verb) (p : Path)
    (data headers : option (gmap string pyobj)) (stream : bool)
    (kwargs : gmap string pyobj) (a : Auth) (w : world) :
  requires_auth p = true -> client_auth self = Some a ->
  scope_contains (auth_scope a) (scopes (scope p)) = false ->
  requests (rate_limit w) <> [] ->
  all_stale_from w (requests (rate_limit w)) ->
  let run := _make_request self method p data headers stream kwargs w in
  run.1 = Raise IndexError /\
  network_calls (trace run.2) = network_calls (trace w).
Proof.
  intros Hr Hc Hs NE St run. subst run.
  rewrite (DispatchFacts.make_request_lacking_scope _ _ _ _ _ _ _ a)
    by assumption.
  destruct (LimiterFacts.reset_all_stale w NE St) as (R & _).
  destruct (DispatchFacts.can_request_keeps w) as (Kt & _ & _).
  rewrite (LimiterFacts.can_request_reset_raises w IndexError R) in *.
  cbn [fst snd] in *. split; [reflexivity | rewrite Kt; reflexivity].
Qed.

Lemma make_request_lacking_scope_stale_history_witness :
  (@_make_request Demo.not_found Demo.handler GET Demo.me None None false ∅
     Scenario.w_one_old_request).1 = Raise IndexError.
Proof.
  apply (@make_request_lacking_scope_stale_history Demo.not_found Demo.handler
           GET Demo.me None None false ∅ Demo.public_auth
           Scenario.w_one_old_request).
  - reflexivity.
  - reflexivity.
  - reflexivity.
  - discriminate.
  - exact ScenarioFacts.w_one_old_request_all_stale.
Defined.

(** ** C8: usage is recorded for every response *)

(** C8.  When an invocation sent a request and the transport answered it,
    [request_used] ran exactly once: the history is the one the readiness
    check left plus one entry, the clock reading taken right after the
    response, and [last_request] is the reading after that.  This holds
    whatever the status; with a status from 400 to 599 the invocation raises
    the HTTP error, after the usage was recorded. *)
Theorem response_recorded_once `{Collaborators}
    (self : AsynchronousHTTPHandler) (method : verb) (p : Path)
    (data headers : option (gmap string pyobj)) (stream : bool)
    (kwargs : gmap string pyobj) (w : world) (r : request) (resp : response) :
  let run := _make_request self method p data headers stream kwargs w in
  network_calls (trace run.2) = network_calls (trace w) ++ [r] ->
  transport r = Ok resp ->
  (exists n : nat,
     ticks run.2 = S (S n) /\
     requests (rate_limit run.2)
       = requests (rate_limit (RateLimit.can_request w).2) ++ [clk w n] /\
     last_request (rate_limit run.2) = clk w (S n)) /\
  (400 <= status_code resp < 600 ->
   run.1 = Raise (HTTPError (status_code resp))).
Proof.
  intros run Hn Ht. subst run.
  rewrite DispatchFacts.make_request_phases in *.
  pose proof (DispatchFacts.before_call_effects self p headers w) as B.
  cbv zeta in B. destruct B as (Bn & Bc & Br).
  destruct (before_call self p headers w) as [[hs | e] w1];
    cbn [fst snd] in *.
  2: { rewrite Bn in Hn. apply (f_equal (@length request)) in Hn.
       rewrite length_app in Hn. simpl in Hn. lia. }
  specialize (Br hs eq_refl).
  unfold http in *. munfold. cbn [fst snd trace] in *.
  set (rq := mkRequest method (base_url +:+ path p) hs (default ∅ data)
                       stream kwargs) in *.
  set (w2 := mkWorld (clk w1) (ticks w1) (rate_limit w1)
                     (trace w1 ++ [EvRequest rq])) in *.
  assert (Erq : r = rq).
  { assert (N2 : network_calls (trace w2) = network_calls (trace w) ++ [rq]).
    { subst w2. cbn [trace]. rewrite DispatchFacts.network_calls_app, Bn.
      reflexivity. }
    destruct (DispatchFacts.after_call_effects resp w2) as (A2 & _).
    destruct (transport rq) as [resp' | e] eqn:T; cbn [fst snd] in Hn.
    - destruct (DispatchFacts.after_call_effects resp' w2) as (A & _).
      rewrite A, DispatchFacts.request_used_effects in Hn.
      cbn [snd trace] in Hn. rewrite N2 in Hn.
      apply app_inj_tail in Hn. symmetry. apply Hn.
    - rewrite N2 in Hn. apply app_inj_tail in Hn. symmetry. apply Hn. }
  subst r. rewrite Ht in *.
  destruct (DispatchFacts.after_call_effects resp w2) as (A & S).
  split.
  - exists (ticks w1). rewrite A, DispatchFacts.request_used_effects.
    cbn [snd ticks rate_limit requests last_request clk w2].
    subst w2. cbn [ticks rate_limit clk]. rewrite Br, Bc.
    split; [reflexivity | split; reflexivity].
  - exact S.
Qed.

(** A fresh limiter, a granted scope and an answer with status 404: the
    invocation raises the HTTP error and the history holds one entry. *)
Lemma response_recorded_once_witness :
  NotFoundRun.run.1 = Raise (HTTPError 404) /\
  requests (rate_limit NotFoundRun.w_fresh) = [] /\
  exists n : nat,
    requests (rate_limit NotFoundRun.run.2)
      = requests (rate_limit (RateLimit.can_request NotFoundRun.w_fresh).2)
          ++ [clk NotFoundRun.w_fresh n].
Proof.
  destruct (@response_recorded_once Demo.not_found Demo.handler GET Demo.user
              None None false ∅ NotFoundRun.w_fresh NotFoundRun.sent
              (mkResponse 404 "{}"))
    as ((n & _ & R & _) & E).
  - vm_compute. reflexivity.
  - reflexivity.
  - split; [apply E; simpl; lia |].
    split; [reflexivity |]. exists n. exact R.
Defined.

(** * Further properties of the limiter *)

Module PruneFacts.
Import RateLimit.

(** The loop returns, or raises [IndexError] on a history it emptied. *)
Lemma reset_loop_outcome (rs : list Q) (w : world) :
  requests (rate_limit w) = rs ->
  (reset_loop rs w).1 = Ok tt \/
  ((reset_loop rs w).1 = Raise IndexError /\
   requests (rate_limit (reset_loop rs w).2) = []).
Proof.
  revert w. induction rs as [| r0 rest IH]; intros w E; simpl.
  - right. munfold. simpl. split; [reflexivity | exact E].
  - munfold. simpl.
    destruct (Qlt_bool (r0 + 60) (clk w (ticks w))); simpl.
    + apply IH. reflexivity.
    + left. reflexivity.
Qed.

Lemma clock_reads_later (w w' : world) (now : Q) :
  clk w' = clk w -> (ticks w <= ticks w')%nat ->
  clock_reads w now -> clock_reads w' now.
Proof.
  intros Ec Ht C n Hn. rewrite Ec. apply C. lia.
Qed.

Lemma spec_prune_idempotent (now : Q) (rs : list Q) :
  spec_prune now (spec_prune now rs) = spec_prune now rs.
Proof.
  induction rs as [| r0 rest IH]; simpl; [reflexivity |].
  destruct (Qlt_bool (r0 + 60) now) eqn:L; [exact IH |].
  simpl. rewrite L. reflexivity.
Qed.

Lemma spec_prune_suffix (now : Q) (rs : list Q) :
  spec_prune now rs `suffix_of` rs.
Proof.
  induction rs as [| r0 rest IH]; simpl; [reflexivity |].
  destruct (Qlt_bool (r0 + 60) now); [apply suffix_cons_r; exact IH | reflexivity].
Qed.

(** On an ascending history the prefix trim leaves no stale entry. *)
Lemma spec_prune_sorted_fresh (now : Q) (rs : list Q) :
  StronglySorted Qle rs ->
  Forall (fun r => ~ stale now r) (spec_prune now rs).
Proof.
  induction 1 as [| r0 rest S IH F]; simpl; [constructor |].
  destruct (Qlt_bool (r0 + 60) now) eqn:L; [exact IH |].
  apply Qlt_bool_false_iff in L. constructor.
  - unfold stale. lra.
  - eapply Forall_impl; [exact F |]. intros r Hr. simpl in Hr.
    unfold stale. lra.
Qed.

(** A history that ends in an entry inside the window survives the trim. *)
Lemma spec_prune_snoc_fresh (now x : Q) (rs : list Q) :
  ~ stale now x -> spec_prune now (rs ++ [x]) <> [].
Proof.
  intros NS. induction rs as [| r0 rest IH]; simpl.
  - destruct (Qlt_bool (x + 60) now) eqn:L; [| discriminate].
    apply Qlt_bool_iff in L. contradiction.
  - destruct (Qlt_bool (r0 + 60) now); [exact IH | discriminate].
Qed.

(** [reset] under a clock that stands at [now]. *)
Lemma reset_frozen (w : world) (now : Q) :
  clock_reads w now ->
  requests (rate_limit (reset w).2) = spec_prune now (requests (rate_limit w)) /\
  (requests (rate_limit w) = [] \/ spec_prune now (requests (rate_limit w)) <> [] ->
   (reset w).1 = Ok tt) /\
  (requests (rate_limit w) <> [] ->
   spec_prune now (requests (rate_limit w)) = [] ->
   (reset w).1 = Raise IndexError).
Proof.
  intros C. destruct (requests (rate_limit w)) as [| r0 rest] eqn:E.
  - rewrite (LimiterFacts.reset_empty w E). simpl.
    split; [exact E | split; [reflexivity | congruence]].
  - destruct (spec_prune now (r0 :: rest)) as [| s0 srest] eqn:P.
    + assert (St : all_stale_from w (requests (rate_limit w))).
      { rewrite E. eapply ReadyFacts.spec_prune_nil_all_stale; eassumption. }
      destruct (LimiterFacts.reset_all_stale w) as (R1 & R2);
        [rewrite E; discriminate | exact St |].
      split; [exact R2 | split; [| intros; exact R1]].
      intros [? | ?]; congruence.
    + rewrite LimiterFacts.reset_nonempty by (rewrite E; discriminate).
      rewrite E.
      destruct (ReadyFacts.reset_loop_refines_spec_prune now (r0 :: rest) w E C)
        as (R1 & R2 & _); [rewrite P; discriminate |].
      rewrite P in R2.
      split; [exact R2 | split; [intros; exact R1 | congruence]].
Qed.

(** [can_request] under a clock that stands at [now], when [reset] returns. *)
Lemma can_request_frozen (w : world) (now : Q) :
  clock_reads w now ->
  requests (rate_limit w) = [] \/ spec_prune now (requests (rate_limit w)) <> [] ->
  (can_request w).1 = Ok (spec_isReady (rate_limit w) now) /\
  requests (rate_limit (can_request w).2)
    = spec_prune now (requests (rate_limit w)) /\
  wait_limit (rate_limit (can_request w).2) = wait_limit (rate_limit w) /\
  limit (rate_limit (can_request w).2) = limit (rate_limit w) /\
  last_request (rate_limit (can_request w).2) = last_request (rate_limit w) /\
  clock_reads (can_request w).2 now.
Proof.
  intros C Hs.
  destruct (reset_frozen w now C) as (R2 & R1 & _). specialize (R1 Hs).
  pose proof (LimiterFacts.reset_frame w) as F. simpl in F.
  destruct F as (Fc & _ & Fw & Fl & Flast & Ft & _).
  rewrite LimiterFacts.can_request_after_reset by exact R1.
  cbn [fst snd rate_limit clk ticks].
  unfold spec_isReady. rewrite R2, Fw, Fl, Flast.
  rewrite Fc, (C (ticks (reset w).2) Ft).
  do 5 (split; [reflexivity |]).
  intros n Hn. cbn [clk ticks] in *. apply C. lia.
Qed.

End PruneFacts.

(** X1.  [reset] has two outcomes and one effect: it returns, or it raises
    [IndexError] having emptied the history; either way the history it
    leaves is a suffix of the one it found, and the configuration,
    [last_request] and the trace are as before. *)
Theorem reset_only_trims (w : world) :
  ((RateLimit.reset w).1 = Ok tt \/
   ((RateLimit.reset w).1 = Raise IndexError /\
    requests (rate_limit (RateLimit.reset w).2) = [])) /\
  requests (rate_limit (RateLimit.reset w).2)
    `suffix_of` requests (rate_limit w) /\
  wait_limit (rate_limit (RateLimit.reset w).2) = wait_limit (rate_limit w) /\
  limit (rate_limit (RateLimit.reset w).2) = limit (rate_limit w) /\
  last_request (rate_limit (RateLimit.reset w).2) = last_request (rate_limit w) /\
  trace (RateLimit.reset w).2 = trace w.
Proof.
  pose proof (LimiterFacts.reset_frame w) as F. simpl in F.
  destruct F as (_ & Ft & Fw & Fl & Flast & _ & Fs).
  split; [| repeat split; assumption].
  destruct (requests (rate_limit w)) as [| r0 rest] eqn:E.
  - left. rewrite (LimiterFacts.reset_empty w E). reflexivity.
  - rewrite LimiterFacts.reset_nonempty by (rewrite E; discriminate).
    apply PruneFacts.reset_loop_outcome. reflexivity.
Qed.

(** X2.  Under a clock that stands at [now], [reset] raises [IndexError] exactly
    when the history is not empty and every entry left the window, and
    returns otherwise; in both cases the history it leaves is the prefix trim
    of the one it found. *)
Theorem reset_raises_iff_all_stale (w : world) (now : Q) :
  clock_reads w now ->
  requests (rate_limit (RateLimit.reset w).2)
    = spec_prune now (requests (rate_limit w)) /\
  ((RateLimit.reset w).1 = Raise IndexError <->
   requests (rate_limit w) <> [] /\
   spec_prune now (requests (rate_limit w)) = []) /\
  ((RateLimit.reset w).1 = Ok tt <->
   requests (rate_limit w) = [] \/
   spec_prune now (requests (rate_limit w)) <> []).
Proof.
  intros C. destruct (PruneFacts.reset_frozen w now C) as (R & Rok & Rraise).
  split; [exact R |].
  destruct (requests (rate_limit w)) as [| r0 rest] eqn:E.
  - specialize (Rok (or_introl eq_refl)). rewrite Rok. split; split.
    + discriminate.
    + intros [NE _]. congruence.
    + intros _. left. reflexivity.
    + reflexivity.
  - destruct (spec_prune now (r0 :: rest)) as [| s0 srest] eqn:P.
    + rewrite Rraise by (discriminate || reflexivity). split; split.
      * intros _. split; [discriminate | reflexivity].
      * reflexivity.
      * discriminate.
      * intros [? | ?]; congruence.
    + rewrite Rok by (right; discriminate). split; split.
      * discriminate.
      * intros [_ ?]. discriminate.
      * intros _. right. discriminate.
      * reflexivity.
Qed.

Lemma reset_raises_iff_all_stale_witness :
  requests (rate_limit (RateLimit.reset Scenario2.w_mixed).2) = [70%Q] /\
  (RateLimit.reset Scenario2.w_mixed).1 = Ok tt /\
  (RateLimit.reset Scenario2.w_all_old).1 = Raise IndexError.
Proof.
  assert (C : forall rl, clock_reads (Scenario2.at_100 rl) 100)
    by (intros rl n _; reflexivity).
  destruct (reset_raises_iff_all_stale Scenario2.w_mixed 100 (C _))
    as (R & _ & Rok).
  destruct (reset_raises_iff_all_stale Scenario2.w_all_old 100 (C _))
    as (_ & Rraise & _).
  split; [exact R | split].
  - apply Rok. right. discriminate.
  - apply Rraise. split; [discriminate | reflexivity].
Defined.

(** X6.  The [IndexError] of the readiness check does not last: the pass that
    raised has emptied the history, so the next reading of [can_request]
    returns, with the interval as the only condition left. *)
Theorem can_request_recovers (w : world) :
  requests (rate_limit w) <> [] ->
  all_stale_from w (requests (rate_limit w)) ->
  let w1 := (RateLimit.can_request w).2 in
  (RateLimit.can_request w).1 = Raise IndexError /\
  (RateLimit.can_request w1).1
    = Ok (Qle_bool (wait_limit (rate_limit w))
                   (clk w (ticks w1) - last_request (rate_limit w))%Q
          && (0 <? limit (rate_limit w))) /\
  requests (rate_limit (RateLimit.can_request w1).2) = [].
Proof.
  intros NE St w1.
  destruct (LimiterFacts.reset_all_stale w NE St) as (R1 & R2).
  pose proof (LimiterFacts.reset_frame w) as F. simpl in F.
  destruct F as (Fc & _ & Fw & Fl & Flast & _ & _).
  assert (E1 : RateLimit.can_request w = (Raise IndexError, (RateLimit.reset w).2))
    by (apply LimiterFacts.can_request_reset_raises; exact R1).
  subst w1. rewrite E1. cbn [fst snd].
  split; [reflexivity |].
  pose proof (LimiterFacts.reset_empty _ R2) as R3.
  rewrite LimiterFacts.can_request_after_reset by (rewrite R3; reflexivity).
  rewrite R3. cbn [fst snd rate_limit requests].
  rewrite R2, Fw, Fl, Flast, Fc. split; reflexivity.
Qed.

Lemma can_request_recovers_witness :
  (RateLimit.can_request Scenario2.w_all_old).1 = Raise IndexError /\
  (RateLimit.can_request (RateLimit.can_request Scenario2.w_all_old).2).1
    = Ok true.
Proof.
  destruct (can_request_recovers Scenario2.w_all_old) as (R1 & R2 & _).
  - discriminate.
  - intros r Hr n _. change (clk Scenario2.w_all_old n) with 100%Q.
    change (requests (rate_limit Scenario2.w_all_old)) with [10%Q; 20%Q] in Hr.
    apply elem_of_cons in Hr. destruct Hr as [-> | Hr]; [reflexivity |].
    apply list_elem_of_singleton in Hr. subst r. reflexivity.
  - split; [exact R1 | exact R2].
Defined.

(** X7.  With the clock standing still, when a reading of [can_request]
    returns an answer, the next reading returns the same answer and leaves
    the limiter as the first left it.  (A first reading that raises is not
    repeated by the next one, which returns.) *)
Theorem can_request_idempotent (w : world) (now : Q) (ready : bool) :
  clock_reads w now ->
  (RateLimit.can_request w).1 = Ok ready ->
  let w1 := (RateLimit.can_request w).2 in
  (RateLimit.can_request w1).1 = Ok ready /\
  rate_limit (RateLimit.can_request w1).2 = rate_limit w1.
Proof.
  intros C R w1.
  assert (Hs : requests (rate_limit w) = [] \/
               spec_prune now (requests (rate_limit w)) <> []).
  { destruct (requests (rate_limit w)) as [| r0 rest] eqn:E; [left; reflexivity |].
    right. intros P.
    destruct (PruneFacts.reset_frozen w now C) as (_ & _ & Rr).
    rewrite E in Rr. specialize (Rr ltac:(discriminate) P).
    rewrite (LimiterFacts.can_request_reset_raises w IndexError Rr) in R.
    discriminate. }
  destruct (PruneFacts.can_request_frozen w now C Hs)
    as (A1 & A2 & A3 & A4 & A5 & C1).
  fold w1 in A2, A3, A4, A5, C1.
  assert (Hs1 : requests (rate_limit w1) = [] \/
                spec_prune now (requests (rate_limit w1)) <> []).
  { rewrite A2, PruneFacts.spec_prune_idempotent.
    destruct (spec_prune now (requests (rate_limit w))); [left | right];
      congruence. }
  destruct (PruneFacts.can_request_frozen w1 now C1 Hs1)
    as (B1 & B2 & B3 & B4 & B5 & _).
  split.
  - rewrite B1. rewrite A1 in R. rewrite <- R. f_equal.
    unfold spec_isReady.
    rewrite A2, A3, A4, A5, PruneFacts.spec_prune_idempotent. reflexivity.
  - rewrite A2, PruneFacts.spec_prune_idempotent, <- A2 in B2.
    destruct (rate_limit (RateLimit.can_request w1).2), (rate_limit w1).
    simpl in *. congruence.
Qed.

Lemma can_request_idempotent_witness :
  (RateLimit.can_request (RateLimit.can_request Scenario2.w_mixed).2).1
    = Ok true.
Proof.
  apply (can_request_idempotent Scenario2.w_mixed 100 true).
  - intros n _. reflexivity.
  - reflexivity.
Defined.

(** X4.  On an ascending history and with the clock standing still, a pruning
    pass that returns leaves no stale entry behind: trimming the stale
    prefix removes every stale entry. *)
Theorem reset_removes_every_stale_entry (w : world) (now : Q) :
  clock_reads w now ->
  history_ascending (rate_limit w) ->
  Forall (fun r => ~ stale now r) (requests (rate_limit (RateLimit.reset w).2)).
Proof.
  intros C As.
  destruct (PruneFacts.reset_frozen w now C) as (R & _ & _).
  rewrite R. apply PruneFacts.spec_prune_sorted_fresh. exact As.
Qed.

Lemma reset_removes_every_stale_entry_witness :
  Forall (fun r => ~ stale 100 r)
         (requests (rate_limit (RateLimit.reset Scenario2.w_mixed).2)).
Proof.
  apply (reset_removes_every_stale_entry Scenario2.w_mixed 100).
  - intros n _. reflexivity.
  - repeat constructor; discriminate.
Defined.

(** X11.  [wait] raises only [IndexError], and exactly when nothing is recorded
    and [limit] is zero or negative: then [len(self.requests) >= self.limit]
    holds on the empty history and [self.requests[0]] is read.  In that case
    nothing is slept; in every other case [wait] returns. *)
Theorem wait_raises_iff_empty_and_no_limit (w : world) :
  ((RateLimit.wait w).1 = Raise IndexError <->
   requests (rate_limit w) = [] /\ limit (rate_limit w) <= 0) /\
  ((RateLimit.wait w).1 = Ok tt \/ (RateLimit.wait w).1 = Raise IndexError) /\
  ((RateLimit.wait w).1 = Raise IndexError ->
   trace (RateLimit.wait w).2 = trace w).
Proof.
  unfold RateLimit.wait. munfold. cbn [fst snd rate_limit ticks clk trace].
  destruct (Z.leb_spec (limit (rate_limit w))
                       (Z.of_nat (length (requests (rate_limit w))))) as [G | G].
  - destruct (requests (rate_limit w)) as [| r0 rest]; cbn in *.
    + split; [| split]; [| right; reflexivity | reflexivity].
      split; [intros _; split; [reflexivity | lia] | reflexivity].
    + split; [| split]; [| left; reflexivity | discriminate].
      split; [discriminate | intros [? _]; discriminate].
  - cbn. split; [| split]; [| left; reflexivity | discriminate].
    split; [discriminate |].
    intros [E L]. rewrite E in G. simpl in G. lia.
Qed.

(** X12.  The delay [wait] sleeps is never shorter than either candidate the
    code computes: it is at least [wait_limit - (t1 - last_request)] with
    [t1] the first clock reading, and, when the history holds [limit]
    entries or more, at least [requests[0] + 60 - t2] with [t2] the second
    reading. *)
Theorem wait_delay_at_least_both_candidates (w : world) :
  (RateLimit.wait w).1 = Ok tt ->
  exists d : Q,
    trace (RateLimit.wait w).2 = trace w ++ [EvSleep d] /\
    (wait_limit (rate_limit w)
       - (clk w (ticks w) - last_request (rate_limit w)) <= d)%Q /\
    (limit (rate_limit w) <= Z.of_nat (length (requests (rate_limit w))) ->
     exists oldest : Q,
       head (requests (rate_limit w)) = Some oldest /\
       (oldest + 60 - clk w (S (ticks w)) <= d)%Q).
Proof.
  unfold RateLimit.wait. munfold. cbn [fst snd rate_limit ticks clk trace].
  destruct (Z.leb_spec (limit (rate_limit w))
                       (Z.of_nat (length (requests (rate_limit w))))) as [G | G].
  - destruct (requests (rate_limit w)) as [| r0 rest]; cbn; [discriminate |].
    intros _. eexists. split; [reflexivity |].
    set (a := (wait_limit (rate_limit w)
               - (clk w (ticks w) - last_request (rate_limit w)))%Q).
    set (b := (r0 + 60 - clk w (S (ticks w)))%Q).
    assert (Ha : (a <= py_max a b)%Q /\ (b <= py_max a b)%Q).
    { unfold py_max. destruct (Qlt_bool a b) eqn:L.
      - apply Qlt_bool_iff in L. split; lra.
      - apply Qlt_bool_false_iff in L. split; lra. }
    destruct Ha as (Ha & Hb). split; [exact Ha |].
    intros _. exists r0. split; [reflexivity | exact Hb].
  - cbn. intros _. eexists. split; [reflexivity |]. split; [apply Qle_refl |].
    intros G'. lia.
Qed.

Lemma wait_delay_at_least_both_candidates_witness :
  exists d : Q,
    trace (RateLimit.wait Scenario2.w_full).2 = [EvSleep d] /\
    (80 + 60 - 100 <= d)%Q.
Proof.
  destruct (wait_delay_at_least_both_candidates Scenario2.w_full eq_refl)
    as (d & T & _ & W).
  exists d. split; [exact T |].
  destruct W as (oldest & Ho & Hd); [vm_compute; discriminate |].
  injection Ho as <-. exact Hd.
Defined.

(** X8.  The window limit holds the gate shut: while the oldest recorded entry is
    inside the window and the history holds [limit] entries or more,
    [can_request] returns [False] and leaves the limiter as it is. *)
Theorem can_request_false_while_window_full
    (w : world) (oldest : Q) (rest : list Q) :
  requests (rate_limit w) = oldest :: rest ->
  ~ stale (clk w (ticks w)) oldest ->
  limit (rate_limit w) <= Z.of_nat (length (requests (rate_limit w))) ->
  (RateLimit.can_request w).1 = Ok false /\
  rate_limit (RateLimit.can_request w).2 = rate_limit w.
Proof.
  intros E NS L.
  destruct (LimiterFacts.reset_stops [] oldest rest w E) as (R1 & R2 & R3).
  { intros i x Hi. inversion Hi. }
  { simpl. rewrite Nat.add_0_r. exact NS. }
  pose proof (LimiterFacts.reset_frame w) as F. simpl in F.
  destruct F as (_ & _ & Fw & Fl & Flast & _ & _).
  rewrite LimiterFacts.can_request_after_reset by exact R1.
  cbn [fst snd rate_limit]. rewrite R2, Fl, <- E. split.
  - f_equal. apply andb_false_intro2. apply Z.ltb_ge. exact L.
  - rewrite <- E in R2.
    destruct (rate_limit (RateLimit.reset w).2), (rate_limit w).
    simpl in *. congruence.
Qed.

Lemma can_request_false_while_window_full_witness :
  (RateLimit.can_request Scenario2.w_full).1 = Ok false /\
  rate_limit (RateLimit.can_request Scenario2.w_full).2
    = rate_limit Scenario2.w_full.
Proof.
  apply (can_request_false_while_window_full Scenario2.w_full 80 [90%Q]).
  - reflexivity.
  - vm_compute. discriminate.
  - vm_compute. discriminate.
Defined.

(** X9.  Right after [request_used], with the clock not yet moved on and a
    positive [wait_limit], [can_request] returns [False]; it does not raise,
    whatever the history was. *)
Theorem can_request_false_right_after_use (w : world) (now : Q) :
  clock_reads w now ->
  (0 < wait_limit (rate_limit w))%Q ->
  (RateLimit.can_request (RateLimit.request_used w).2).1 = Ok false.
Proof.
  intros C Hw.
  set (w1 := (RateLimit.request_used w).2).
  assert (C1 : clock_reads w1 now).
  { intros n Hn. apply C. change (ticks w1) with (S (S (ticks w))) in Hn. lia. }
  assert (Er : requests (rate_limit w1) = requests (rate_limit w) ++ [now]).
  { change (requests (rate_limit w1))
      with (requests (rate_limit w) ++ [clk w (ticks w)]).
    rewrite (C (ticks w)) by lia. reflexivity. }
  assert (El : last_request (rate_limit w1) = now).
  { change (last_request (rate_limit w1)) with (clk w (S (ticks w))).
    apply C. lia. }
  destruct (PruneFacts.can_request_frozen w1 now C1) as (R & _).
  { right. rewrite Er. apply PruneFacts.spec_prune_snoc_fresh.
    unfold stale. lra. }
  rewrite R. f_equal. unfold spec_isReady. apply andb_false_intro1.
  rewrite El. change (wait_limit (rate_limit w1)) with (wait_limit (rate_limit w)).
  destruct (Qle_bool _ _) eqn:B; [| reflexivity].
  apply Qle_bool_iff in B. lra.
Qed.

Lemma can_request_false_right_after_use_witness :
  (RateLimit.can_request (RateLimit.request_used Scenario2.w_all_old).2).1
    = Ok false.
Proof.
  apply (can_request_false_right_after_use Scenario2.w_all_old 100).
  - intros n _. reflexivity.
  - reflexivity.
Defined.

(** X10.  [True] from [can_request] is sound for both limits: the history it
    leaves holds fewer than [limit] entries, and at the reading it took the
    interval since [last_request] had passed. *)
Theorem can_request_true_sound (w : world) :
  (RateLimit.can_request w).1 = Ok true ->
  let w1 := (RateLimit.can_request w).2 in
  Z.of_nat (length (requests (rate_limit w1))) < limit (rate_limit w) /\
  (exists n : nat,
     (ticks w <= n)%nat /\ ticks w1 = S n /\
     (wait_limit (rate_limit w) <= clk w n - last_request (rate_limit w))%Q).
Proof.
  intros R w1. subst w1.
  pose proof (LimiterFacts.reset_frame w) as F. simpl in F.
  destruct F as (Fc & _ & Fw & Fl & Flast & Ft & _).
  destruct (RateLimit.reset w).1 as [[] | e] eqn:Rr.
  - rewrite LimiterFacts.can_request_after_reset in * by exact Rr.
    cbn [fst snd rate_limit ticks] in *.
    injection R as R. apply andb_prop in R. destruct R as (R1 & R2).
    rewrite Fw, Flast, Fc in R1. rewrite Fl in R2.
    split; [apply Z.ltb_lt; exact R2 |].
    exists (ticks (RateLimit.reset w).2).
    split; [exact Ft | split; [reflexivity |]].
    apply Qle_bool_iff. exact R1.
  - rewrite (LimiterFacts.can_request_reset_raises w e Rr) in R. discriminate.
Qed.

Lemma can_request_true_sound_witness :
  Z.of_nat (length (requests
     (rate_limit (RateLimit.can_request Scenario2.w_mixed).2))) < 2.
Proof.
  apply (can_request_true_sound Scenario2.w_mixed). reflexivity.
Defined.

(** * Further properties of the dispatcher *)

Module InvokeFacts.
Import RateLimit.

Section WithCollaborators.
Context `{Collaborators}.

(** The rate gate of [_make_request], when it lets the invocation through. *)
Lemma gate_opens (w : world) :
  gate_passes w ->
  exists w1 : world,
    (ready ← can_request; if negb ready then wait else mret tt) w = (Ok tt, w1) /\
    rate_limit w1 = rate_limit (can_request w).2 /\
    network_calls (trace w1) = network_calls (trace w) /\
    clk w1 = clk w.
Proof.
  intros (ready & R & G).
  destruct (DispatchFacts.can_request_keeps w) as (Kt & Kl & Kc).
  munfold. destruct (can_request w) as [[b | e] w1]; cbn [fst snd] in *;
    [| discriminate].
  injection R as ->. destruct ready; cbn [negb].
  - exists w1. rewrite Kt. repeat split. exact Kc.
  - destruct G as [? | G]; [discriminate |].
    destruct (DispatchFacts.wait_sleeps w1) as (W1 & d & W2);
      [rewrite Kl; exact G |].
    destruct (DispatchFacts.wait_trace w1) as (Wr & Wc & _).
    destruct (wait w1) as [[[] | e] w2]; cbn [fst snd] in *; [| discriminate].
    exists w2. split; [reflexivity |]. split; [exact Wr |]. split.
    + rewrite W2, DispatchFacts.network_calls_app, Kt. simpl. apply app_nil_r.
    + congruence.
Qed.

(** The scope test on a world it does not touch. *)
Lemma scope_test_passes (self : AsynchronousHTTPHandler) (p : Path) (w : world) :
  checks_pass self p ->
  requires_auth p && is_none (client_auth self) = false /\
  (if requires_auth p
   then match client_auth self with
        | Some a => mret (negb (scope_contains (auth_scope a) (scopes (scope p))))
        | None => raise AttributeError
        end
   else mret false) w = (Ok false, w).
Proof.
  intros P. unfold checks_pass in P. destruct (requires_auth p).
  - destruct (P eq_refl) as (a & Ea & Es). rewrite Ea, Es.
    split; reflexivity.
  - split; reflexivity.
Qed.

(** The first phase up to the call of [get_headers]. *)
Lemma before_call_reaches_headers (self : AsynchronousHTTPHandler) (p : Path)
    (headers : option (gmap string pyobj)) (w : world) :
  checks_pass self p -> gate_passes w ->
  exists w1 : world,
    before_call self p headers w
      = call_get_headers self (requires_auth p) (default ∅ headers) w1 /\
    rate_limit w1 = rate_limit (can_request w).2 /\
    network_calls (trace w1) = network_calls (trace w) /\
    clk w1 = clk w.
Proof.
  intros P G. destruct (gate_opens w G) as (w1 & E & Er & En & Ec).
  exists w1. split; [| repeat split; assumption].
  destruct (scope_test_passes self p w1 P) as (A & S).
  unfold before_call. rewrite A. munfold. munfold.
  destruct (can_request w) as [[ready | e] w0]; [| discriminate].
  destruct (if negb ready then wait else _) as [[[] | e] w2];
    [| discriminate].
  injection E as ->. unfold mret, M_ret, ret in S. rewrite S. reflexivity.
Qed.

Lemma call_get_headers_world (self : AsynchronousHTTPHandler) (ra : bool)
    (headers : gmap string pyobj) (w : world) :
  (call_get_headers self ra headers w).2 = w.
Proof.
  unfold call_get_headers. munfold.
  destruct (is_none _ && is_none _); reflexivity.
Qed.

Lemma call_get_headers_plain (self : AsynchronousHTTPHandler) (ra : bool)
    (headers : gmap string pyobj) (w : world) :
  plain_keys headers ->
  call_get_headers self ra headers w = (get_headers self ra headers, w).
Proof.
  intros (K1 & K2). unfold call_get_headers. rewrite K1, K2. reflexivity.
Qed.

Lemma call_get_headers_reserved (self : AsynchronousHTTPHandler) (ra : bool)
    (headers : gmap string pyobj) (w : world) :
  is_Some (headers !! "requires_auth") \/ is_Some (headers !! "self") ->
  call_get_headers self ra headers w = (Raise TypeError, w).
Proof.
  unfold call_get_headers. munfold.
  intros [[v E] | [v E]]; rewrite E; simpl; [reflexivity |].
  destruct (is_none _); reflexivity.
Qed.

(** When the last phase returns. *)
Lemma after_call_returns (r : response) (j : Json) (w : world) :
  status_code r < 400 \/ 600 <= status_code r ->
  json r = Ok j ->
  (after_call r w).1 = Ok j.
Proof.
  intros Hs Hj. unfold after_call. munfold.
  rewrite DispatchFacts.request_used_effects.
  unfold raise_for_status. munfold.
  destruct (Z.leb_spec 400 (status_code r)), (Z.ltb_spec (status_code r) 600);
    simpl; try lia; rewrite Hj; reflexivity.
Qed.

End WithCollaborators.
End InvokeFacts.

Module InvokeShape.
Import RateLimit.

Section WithCollaborators.
Context `{Collaborators}.

(** The world the first phase leaves is the one it found, the one the
    readiness check left, or the one [wait] left after that. *)
Lemma before_call_world (self : AsynchronousHTTPHandler) (p : Path)
    (headers : option (gmap string pyobj)) (w : world) :
  let w' := (before_call self p headers w).2 in
  w' = w \/ w' = (can_request w).2 \/ w' = (wait (can_request w).2).2.
Proof.
  unfold before_call. munfold.
  destruct (requires_auth p && is_none (client_auth self));
    [left; reflexivity |].
  right. destruct (can_request w) as [[ready | e] w1]; cbn [fst snd];
    [| left; reflexivity].
  assert (G : forall r w2, (if negb ready then wait else mret ()) w1 = (r, w2) ->
            w2 = w1 \/ w2 = (wait w1).2).
  { intros r w2 E. destruct ready; cbn in E.
    - left. inversion E. reflexivity.
    - right. rewrite E. reflexivity. }
  destruct (if negb ready then wait else _) as [[[] | e] w2];
    pose proof (G _ _ eq_refl) as G2; cbn [fst snd]; [| exact G2].
  assert (L : forall r w3,
            (if requires_auth p
             then match client_auth self with
                  | Some a => fun w => (Ok (negb (scope_contains (auth_scope a)
                                                    (scopes (scope p)))), w)
                  | None => fun w => (Raise AttributeError, w)
                  end
             else fun w => (Ok false, w)) w2 = (r, w3) -> w3 = w2).
  { intros r w3. destruct (requires_auth p); [destruct (client_auth self) |];
      intros E'; inversion E'; reflexivity. }
  destruct (if requires_auth p then _ else _) as [[lacking | e] w3];
    rewrite (L _ _ eq_refl); cbn [fst snd]; [| exact G2].
  destruct lacking; cbn [fst snd]; [exact G2 |].
  rewrite InvokeFacts.call_get_headers_world. exact G2.
Qed.

(** Headers that come out of the first phase come out of [get_headers]. *)
Lemma before_call_headers (self : AsynchronousHTTPHandler) (p : Path)
    (headers : option (gmap string pyobj)) (w : world)
    (hs : gmap string string) :
  (before_call self p headers w).1 = Ok hs ->
  get_headers self (requires_auth p) (default ∅ headers) = Ok hs.
Proof.
  unfold before_call. munfold.
  destruct (requires_auth p && is_none (client_auth self)); [discriminate |].
  destruct (can_request w) as [[ready | e] w1]; [| discriminate].
  destruct (if negb ready then wait else _) as [[[] | e] w2]; [| discriminate].
  destruct (if requires_auth p then _ else _) as [[lacking | e] w3];
    [| discriminate].
  destruct lacking; [discriminate |].
  unfold call_get_headers. munfold.
  destruct (is_none _ && is_none _); cbn [fst]; [tauto | discriminate].
Qed.

(** The first phase suspends at most once. *)
Lemma before_call_sleeps (self : AsynchronousHTTPHandler) (p : Path)
    (headers : option (gmap string pyobj)) (w : world) :
  let w' := (before_call self p headers w).2 in
  sleeps (trace w') = sleeps (trace w) \/
  exists d, sleeps (trace w') = sleeps (trace w) ++ [d].
Proof.
  destruct (DispatchFacts.can_request_keeps w) as (Kt & _ & _).
  destruct (DispatchFacts.wait_trace (can_request w).2) as (_ & _ & Wt).
  cbv zeta.
  destruct (before_call_world self p headers w) as [-> | [-> | ->]].
  - left. reflexivity.
  - left. rewrite Kt. reflexivity.
  - destruct Wt as [-> | [d ->]].
    + left. rewrite Kt. reflexivity.
    + right. exists d. rewrite DispatchFacts.sleeps_app, Kt. reflexivity.
Qed.

(** The first phase reads the clock and trims the history, nothing more. *)
Lemma before_call_trims (self : AsynchronousHTTPHandler) (p : Path)
    (headers : option (gmap string pyobj)) (w : world) :
  let w' := (before_call self p headers w).2 in
  clk w' = clk w /\ (ticks w <= ticks w')%nat /\
  requests (rate_limit w') `suffix_of` requests (rate_limit w) /\
  last_request (rate_limit w') = last_request (rate_limit w).
Proof.
  pose proof (InvariantFacts.can_request_frame w) as F. simpl in F.
  destruct F as (Fc & Ft & Fs & Fl).
  pose proof (InvariantFacts.wait_frame (can_request w).2) as G. simpl in G.
  destruct G as (Gc & Gt & Gr). cbv zeta.
  destruct (before_call_world self p headers w) as [-> | [-> | ->]].
  - repeat split; [lia | reflexivity].
  - repeat split; assumption.
  - rewrite Gr, Gc. repeat split; try assumption. lia.
Qed.

End WithCollaborators.
End InvokeShape.

(** X15.  The way through: when both checks pass, the rate gate lets the
    invocation through, the caller's headers are plain, the transport
    answers with a status outside 400..599 and the body decodes,
    [_make_request] returns the decoded body; it has sent one request, the
    one built from the verb, [base_url + path.path], the headers of
    [get_headers], the data, the stream flag and the parameters; and it has
    recorded one use. *)
Theorem make_request_returns_json `{Collaborators}
    (self : AsynchronousHTTPHandler) (method : verb) (p : Path)
    (data headers : option (gmap string pyobj)) (stream : bool)
    (kwargs : gmap string pyobj) (w : world)
    (hs : gmap string string) (resp : response) (j : Json) :
  checks_pass self p -> gate_passes w -> plain_keys (default ∅ headers) ->
  get_headers self (requires_auth p) (default ∅ headers) = Ok hs ->
  transport (request_of method p hs data stream kwargs) = Ok resp ->
  status_code resp < 400 \/ 600 <= status_code resp ->
  json resp = Ok j ->
  let run := _make_request self method p data headers stream kwargs w in
  run.1 = Ok j /\
  network_calls (trace run.2)
    = network_calls (trace w) ++ [request_of method p hs data stream kwargs] /\
  exists t : Q,
    requests (rate_limit run.2)
      = requests (rate_limit (RateLimit.can_request w).2) ++ [t].
Proof.
  intros P G K Hh Ht Hs Hj run. subst run.
  rewrite DispatchFacts.make_request_phases.
  destruct (InvokeFacts.before_call_reaches_headers self p headers w P G)
    as (w1 & E & Er & En & Ec).
  rewrite E, (InvokeFacts.call_get_headers_plain _ _ _ _ K), Hh.
  unfold http. munfold. fold (request_of method p hs data stream kwargs).
  rewrite Ht.
  match goal with |- context [after_call resp ?w2] => set (w2' := w2) end.
  destruct (DispatchFacts.after_call_effects resp w2') as (A & _).
  split; [apply InvokeFacts.after_call_returns; assumption |].
  rewrite A, DispatchFacts.request_used_effects. subst w2'.
  cbn [snd trace rate_limit requests]. split.
  - rewrite DispatchFacts.network_calls_app, En. reflexivity.
  - eexists. rewrite Er. reflexivity.
Qed.

Lemma make_request_returns_json_witness :
  (@_make_request Demo2.found (Demo2.handler _) GET (Demo2.user _)
     None None false ∅ NotFoundRun.w_fresh).1 = Ok "{id: 2}".
Proof.
  eapply (@make_request_returns_json Demo2.found (Demo2.handler _) GET
            (Demo2.user _) None None false ∅ NotFoundRun.w_fresh).
  - intros _. exists (Demo2.public_auth _). split; reflexivity.
  - exists true. split; [reflexivity | left; reflexivity].
  - split; reflexivity.
  - reflexivity.
  - reflexivity.
  - left. simpl. lia.
  - reflexivity.
Defined.

(** X16.  A fault of the transport is not a use: when the transport raises instead
    of answering, [_make_request] raises the same error, one request was
    sent, and the limiter is as the readiness check left it, without a new
    entry. *)
Theorem transport_fault_is_not_recorded `{Collaborators}
    (self : AsynchronousHTTPHandler) (method : verb) (p : Path)
    (data headers : option (gmap string pyobj)) (stream : bool)
    (kwargs : gmap string pyobj) (w : world)
    (hs : gmap string string) (e : exn) :
  checks_pass self p -> gate_passes w -> plain_keys (default ∅ headers) ->
  get_headers self (requires_auth p) (default ∅ headers) = Ok hs ->
  transport (request_of method p hs data stream kwargs) = Raise e ->
  let run := _make_request self method p data headers stream kwargs w in
  run.1 = Raise e /\
  network_calls (trace run.2)
    = network_calls (trace w) ++ [request_of method p hs data stream kwargs] /\
  rate_limit run.2 = rate_limit (RateLimit.can_request w).2.
Proof.
  intros P G K Hh Ht run. subst run.
  rewrite DispatchFacts.make_request_phases.
  destruct (InvokeFacts.before_call_reaches_headers self p headers w P G)
    as (w1 & E & Er & En & Ec).
  rewrite E, (InvokeFacts.call_get_headers_plain _ _ _ _ K), Hh.
  unfold http. munfold. fold (request_of method p hs data stream kwargs).
  rewrite Ht. cbn [fst snd trace rate_limit].
  split; [reflexivity | split; [| exact Er]].
  rewrite DispatchFacts.network_calls_app, En. reflexivity.
Qed.

Lemma transport_fault_is_not_recorded_witness :
  let run := @_make_request Demo2.unreachable (Demo2.handler _) GET
               (Demo2.user _) None None false ∅ NotFoundRun.w_fresh in
  run.1 = Raise TransportError /\ requests (rate_limit run.2) = [].
Proof.
  destruct (@transport_fault_is_not_recorded Demo2.unreachable
              (Demo2.handler _) GET (Demo2.user _) None None false ∅
              NotFoundRun.w_fresh
              (<["Authorization" := "Bearer secret"]>
                 (stringify ∅ ∪ base_headers))
              TransportError) as (R & _ & L).
  - intros _. exists (Demo2.public_auth _). split; reflexivity.
  - exists true. split; [reflexivity | left; reflexivity].
  - split; reflexivity.
  - reflexivity.
  - reflexivity.
  - split; [exact R |]. cbv zeta. rewrite L. reflexivity.
Defined.

(** X17.  A header named like a parameter of [get_headers] ([requires_auth] or
    [self]) makes the call of [get_headers] a [TypeError]: the invocation
    raises it after the checks and the rate gate, sends nothing and records
    no use. *)
Theorem reserved_header_key_is_type_error `{Collaborators}
    (self : AsynchronousHTTPHandler) (method : verb) (p : Path)
    (data headers : option (gmap string pyobj)) (stream : bool)
    (kwargs : gmap string pyobj) (w : world) :
  checks_pass self p -> gate_passes w ->
  is_Some (default ∅ headers !! "requires_auth")
    \/ is_Some (default ∅ headers !! "self") ->
  let run := _make_request self method p data headers stream kwargs w in
  run.1 = Raise TypeError /\
  network_calls (trace run.2) = network_calls (trace w) /\
  rate_limit run.2 = rate_limit (RateLimit.can_request w).2.
Proof.
  intros P G K run. subst run.
  rewrite DispatchFacts.make_request_phases.
  destruct (InvokeFacts.before_call_reaches_headers self p headers w P G)
    as (w1 & E & Er & En & Ec).
  rewrite E, (InvokeFacts.call_get_headers_reserved _ _ _ _ K).
  cbn [fst snd]. split; [reflexivity | split; assumption].
Qed.

Lemma reserved_header_key_is_type_error_witness :
  (@_make_request Demo2.found (Demo2.handler _) GET (Demo2.user _) None
     (Some (<["self" := PyStr "x"]> ∅)) false ∅ NotFoundRun.w_fresh).1
  = Raise TypeError.
Proof.
  apply (@reserved_header_key_is_type_error Demo2.found (Demo2.handler _) GET
           (Demo2.user _) None (Some (<["self" := PyStr "x"]> ∅)) false ∅
           NotFoundRun.w_fresh).
  - intros _. exists (Demo2.public_auth _). split; reflexivity.
  - exists true. split; [reflexivity | left; reflexivity].
  - right. exists (PyStr "x"). reflexivity.
Defined.

(** X20.  Whatever the inputs and the outcome, one invocation sends at most one
    request and suspends at most once on the limiter; and a request it sends
    is the one built from its verb, [base_url + path.path], the headers
    [get_headers] returned, its data, stream flag and parameters. *)
Theorem one_invocation_one_request_at_most `{Collaborators}
    (self : AsynchronousHTTPHandler) (method : verb) (p : Path)
    (data headers : option (gmap string pyobj)) (stream : bool)
    (kwargs : gmap string pyobj) (w : world) :
  let run := _make_request self method p data headers stream kwargs w in
  (network_calls (trace run.2) = network_calls (trace w) \/
   exists hs : gmap string string,
     get_headers self (requires_auth p) (default ∅ headers) = Ok hs /\
     network_calls (trace run.2)
       = network_calls (trace w)
           ++ [request_of method p hs data stream kwargs]) /\
  (sleeps (trace run.2) = sleeps (trace w) \/
   exists d : Q, sleeps (trace run.2) = sleeps (trace w) ++ [d]).
Proof.
  cbv zeta. rewrite DispatchFacts.make_request_phases.
  pose proof (DispatchFacts.before_call_effects self p headers w) as B.
  cbv zeta in B. destruct B as (Bn & _ & _).
  pose proof (InvokeShape.before_call_sleeps self p headers w) as Bs.
  cbv zeta in Bs.
  pose proof (InvokeShape.before_call_headers self p headers w) as Bh.
  destruct (before_call self p headers w) as [[hs | e] w1];
    cbn [fst snd] in *; [| split; [left; exact Bn | exact Bs]].
  specialize (Bh hs eq_refl).
  unfold http. munfold. fold (request_of method p hs data stream kwargs).
  assert (N : forall t, network_calls (t ++ [EvRequest (request_of method p hs
                data stream kwargs)])
              = network_calls t ++ [request_of method p hs data stream kwargs])
    by (intros t; rewrite DispatchFacts.network_calls_app; reflexivity).
  assert (S : forall t (r : request), sleeps (t ++ [EvRequest r]) = sleeps t)
    by (intros t r; rewrite DispatchFacts.sleeps_app; apply app_nil_r).
  destruct (transport _) as [resp | e]; cbn [fst snd trace].
  - match goal with |- context [after_call resp ?w2] =>
      destruct (DispatchFacts.after_call_effects resp w2) as (A & _) end.
    rewrite A, DispatchFacts.request_used_effects. cbn [snd trace].
    rewrite N, S, Bn. split; [right; exists hs; split; [exact Bh | reflexivity] |].
    exact Bs.
  - rewrite N, S, Bn. split; [right; exists hs; split; [exact Bh | reflexivity] |].
    exact Bs.
Qed.

(** X21.  An invocation keeps the invariants of the limiter: under a monotone
    clock, and on a limiter whose timestamps were read from that clock,
    whatever the outcome of [_make_request] the history is again ascending,
    [last_request] has not decreased and the timestamps held were read from
    the clock. *)
Theorem make_request_preserves_invariants `{Collaborators}
    (self : AsynchronousHTTPHandler) (method : verb) (p : Path)
    (data headers : option (gmap string pyobj)) (stream : bool)
    (kwargs : gmap string pyobj) (w : world) :
  clock_monotone w -> recorded_in_past w -> history_ascending (rate_limit w) ->
  let w' := (_make_request self method p data headers stream kwargs w).2 in
  history_ascending (rate_limit w') /\
  (last_request (rate_limit w) <= last_request (rate_limit w'))%Q /\
  recorded_in_past w' /\ clock_monotone w'.
Proof.
  intros Mo Pa As. cbv zeta. rewrite DispatchFacts.make_request_phases.
  pose proof (InvokeShape.before_call_trims self p headers w) as T.
  cbv zeta in T. destruct T as (Tc & Tt & Ts & Tl).
  destruct (InvariantFacts.trim_preserves w _ Tc Tt Ts Tl Mo Pa As)
    as (As1 & L1 & Pa1 & Mo1).
  destruct (before_call self p headers w) as [[hs | e] w1];
    cbn [fst snd] in *; [| split; [| split; [| split]]; assumption].
  unfold http. munfold.
  match goal with |- context [transport ?r] => set (rq := r) end.
  set (w2 := mkWorld (clk w1) (ticks w1) (rate_limit w1)
                     (trace w1 ++ [EvRequest rq])).
  assert (As2 : history_ascending (rate_limit w2)) by exact As1.
  assert (Pa2 : recorded_in_past w2) by exact Pa1.
  assert (Mo2 : clock_monotone w2) by exact Mo1.
  destruct (transport rq) as [resp | e]; cbn [fst snd];
    [| fold w2; split; [| split; [| split]]; assumption].
  destruct (DispatchFacts.after_call_effects resp w2) as (A & _).
  fold w2. rewrite A.
  destruct (InvariantFacts.request_used_preserves w2 Mo2 Pa2 As2)
    as (As3 & L3 & Pa3 & Mo3).
  split; [exact As3 | split; [| split; assumption]].
  change (last_request (rate_limit w2)) with (last_request (rate_limit w1)) in L3.
  lra.
Qed.

Lemma make_request_preserves_invariants_witness :
  history_ascending
    (rate_limit (@_make_request Demo2.found (Demo2.handler _) GET
                   (Demo2.user _) None None false ∅ Scenario2.w_mixed).2).
Proof.
  apply (@make_request_preserves_invariants Demo2.found (Demo2.handler _) GET
           (Demo2.user _) None None false ∅ Scenario2.w_mixed).
  - intros i j _. apply Qle_refl.
  - split; [repeat constructor |]; vm_compute; discriminate.
  - repeat constructor; vm_compute; discriminate.
Defined.

(** X22.  The five entry points differ in the verb and in nothing else: a request
    sent by [get], [post], [delete], [patch] or [put] carries that verb and
    the URL [base_url + path.path]. *)
Theorem entry_points_send_their_verb `{Collaborators}
    (self : AsynchronousHTTPHandler) (p : Path)
    (data headers : option (gmap string pyobj)) (stream : bool)
    (kwargs : gmap string pyobj) (w : world) (r : request) :
  let sent := fun (run : M Json) =>
    network_calls (trace (run w).2) = network_calls (trace w) ++ [r] in
  let carries := fun (v : verb) =>
    rq_method r = v /\ rq_url r = base_url +:+ path p in
  (sent (Verbs.get self p data headers stream kwargs) -> carries GET) /\
  (sent (Verbs.post self p data headers stream kwargs) -> carries POST) /\
  (sent (Verbs.delete self p data headers stream kwargs) -> carries DELETE) /\
  (sent (Verbs.patch self p data headers stream kwargs) -> carries PATCH) /\
  (sent (Verbs.put self p data headers stream kwargs) -> carries PUT).
Proof.
  assert (G : forall v,
    network_calls (trace (_make_request self v p data headers stream kwargs w).2)
      = network_calls (trace w) ++ [r] ->
    rq_method r = v /\ rq_url r = base_url +:+ path p).
  { intros v Hs.
    rewrite DispatchFacts.make_request_phases in Hs.
    pose proof (DispatchFacts.before_call_effects self p headers w) as B.
    cbv zeta in B. destruct B as (Bn & _ & _).
    assert (Z : network_calls (trace w) <> network_calls (trace w) ++ [r]).
    { intros E. apply (f_equal (@length request)) in E.
      rewrite length_app in E. simpl in E. lia. }
    destruct (before_call self p headers w) as [[hs | e] w1];
      cbn [fst snd] in *; [| congruence].
    unfold http in Hs. munfold.
    destruct (transport _) as [resp | e]; cbn [fst snd trace] in Hs.
    - match type of Hs with context [after_call resp ?w2] =>
        destruct (DispatchFacts.after_call_effects resp w2) as (A & _) end.
      rewrite A, DispatchFacts.request_used_effects in Hs.
      cbn [snd trace] in Hs.
      rewrite DispatchFacts.network_calls_app, Bn in Hs.
      apply app_inj_tail in Hs. destruct Hs as (_ & <-). split; reflexivity.
    - rewrite DispatchFacts.network_calls_app, Bn in Hs.
      apply app_inj_tail in Hs. destruct Hs as (_ & <-). split; reflexivity. }
  cbv zeta. split; [| split; [| split; [| split]]];
    intros Hs; apply G; exact Hs.
Qed.

Lemma entry_points_send_their_verb_witness :
  rq_method NotFoundRun.sent = GET /\
  rq_url NotFoundRun.sent = "https://osu.ppy.sh/api/v2/users/2".
Proof.
  destruct (@entry_points_send_their_verb Demo.not_found Demo.handler Demo.user
              None None false ∅ NotFoundRun.w_fresh NotFoundRun.sent)
    as (G & _).
  apply G. vm_compute. reflexivity.
Defined.

(** X18.  The first check looks at [client.auth], the [Authorization] header reads
    [self.auth]: with a credential on the client that holds the scope and
    none on the handler, an invocation on an endpoint with [requires_auth]
    gets past both checks and the rate gate and then raises
    [AttributeError]; nothing is sent and no use is recorded. *)
Theorem handler_without_auth_is_attribute_error `{Collaborators}
    (self : AsynchronousHTTPHandler) (method : verb) (p : Path)
    (data headers : option (gmap string pyobj)) (stream : bool)
    (kwargs : gmap string pyobj) (w : world) :
  requires_auth p = true -> auth self = None ->
  checks_pass self p -> gate_passes w -> plain_keys (default ∅ headers) ->
  let run := _make_request self method p data headers stream kwargs w in
  run.1 = Raise AttributeError /\
  network_calls (trace run.2) = network_calls (trace w) /\
  rate_limit run.2 = rate_limit (RateLimit.can_request w).2.
Proof.
  intros Hr Ha P G K run. subst run.
  rewrite DispatchFacts.make_request_phases.
  destruct (InvokeFacts.before_call_reaches_headers self p headers w P G)
    as (w1 & E & Er & En & Ec).
  rewrite E, (InvokeFacts.call_get_headers_plain _ _ _ _ K).
  unfold get_headers. rewrite Hr, Ha. cbn [fst snd].
  split; [reflexivity | split; assumption].
Qed.

Lemma handler_without_auth_is_attribute_error_witness :
  (@_make_request Demo2.found (Demo2.half_built _) GET (Demo2.user _)
     None None false ∅ NotFoundRun.w_fresh).1 = Raise AttributeError.
Proof.
  apply (@handler_without_auth_is_attribute_error Demo2.found
           (Demo2.half_built _) GET (Demo2.user _) None None false ∅
           NotFoundRun.w_fresh).
  - reflexivity.
  - reflexivity.
  - intros _. exists (Demo2.public_auth _). split; reflexivity.
  - exists true. split; [reflexivity | left; reflexivity].
  - split; reflexivity.
Defined.

(** ** Instances of the supporting lemmas *)

Lemma reset_prefix_trim_witness :
  (RateLimit.reset Scenario2.w_mixed).1 = Ok tt /\
  requests (rate_limit (RateLimit.reset Scenario2.w_mixed).2) = [70%Q].
Proof.
  apply (reset_prefix_trim [10%Q; 20%Q] 70 [] Scenario2.w_mixed).
  - reflexivity.
  - intros i x Hi. change (clk Scenario2.w_mixed _) with 100%Q.
    destruct i as [| [| i]]; simpl in Hi; inversion Hi; subst; reflexivity.
  - vm_compute. discriminate.
Defined.

Lemma can_request_refines_spec_witness :
  (RateLimit.can_request Scenario2.w_mixed).1 = Ok true /\
  requests (rate_limit (RateLimit.can_request Scenario2.w_mixed).2) = [70%Q].
Proof.
  apply (can_request_refines_spec Scenario2.w_mixed 100).
  - intros n _. reflexivity.
  - right. discriminate.
Defined.

Lemma make_request_insufficient_scope_witness :
  let run := @_make_request Demo.not_found Demo.handler GET Demo.me
               None None false ∅ Scenario.w_just_used in
  run.1 = Raise (ScopeException (@scope_message Demo.not_found ["identify"]))
  /\ network_calls (trace run.2) = [].
Proof.
  apply (@make_request_insufficient_scope Demo.not_found Demo.handler GET
           Demo.me None None false ∅ Demo.public_auth Scenario.w_just_used
           false).
  - reflexivity.
  - reflexivity.
  - reflexivity.
  - reflexivity.
  - right. vm_compute. discriminate.
Defined.

Lemma init_establishes_invariants_witness :
  history_ascending
    (rate_limit (RateLimit.init (1 # 2) 60 Scenario.w_start).2) /\
  recorded_in_past (RateLimit.init (1 # 2) 60 Scenario.w_start).2.
Proof.
  destruct (init_establishes_invariants Scenario.w_start (1 # 2) 60)
    as (A & P & _).
  - vm_compute. discriminate.
  - exact ScenarioFacts.clock_0_then_61_monotone.
  - split; assumption.
Defined.

Lemma run_ops_preserves_invariants_witness :
  history_ascending
    (rate_limit
       (run_ops [OpRequestUsed; OpCanRequest; OpWait; OpReset; OpRequestUsed]
                Scenario.w_one_old_request)).
Proof.
  apply (run_ops_preserves_invariants
           [OpRequestUsed; OpCanRequest; OpWait; OpReset; OpRequestUsed]
           Scenario.w_one_old_request).
  - exact ScenarioFacts.clock_0_then_61_monotone.
  - split.
    + repeat constructor. vm_compute. discriminate.
    + vm_compute. discriminate.
  - repeat constructor.
Defined.
